(** * TaskFlow backend: the todo model and its routes

    A shallow embedding of the Mongoose schema [todo.schema] (statics,
    instance methods, the pre-save hook) and of the Express router that
    serves it, followed by the properties of the listing query, the
    statistics pipeline, the lifecycle operations and the bulk endpoint.

    Conventions.
    - An instant ([Date]) is the number of milliseconds since the epoch, in [Z].
    - A string is the sequence of the bytes of its UTF-8 encoding. White
      space is that of the language (what [\s] matches); lengths count
      bytes, which is the number of characters for ASCII text; case folding
      is that of the ASCII letters.
    - A collection is the list of its documents in storage order.
    - Every request is served at one instant [now]: the calls of [new Date()]
      made while serving one request are not told apart. *)

From Stdlib Require Import ZArith String Ascii List Bool Lia.
From stdpp Require Import base option list sorting gmap strings.

Open Scope string_scope.

(** ** Values

    One type serves for the JavaScript values that travel through the
    handlers and for the BSON values the database compares. [VUndefined] is
    JavaScript's [undefined] and, on the database side, a field that the
    document does not have. *)

Definition ObjectId := N.

Bind Scope N_scope with ObjectId.

Inductive value :=
| VUndefined
| VNull
| VBool (b : bool)
| VNum (z : Z)
| VStr (s : string)
| VOid (i : ObjectId)
| VDate (d : Z).

Global Instance value_eq_dec : EqDecision value.
Proof. solve_decision. Defined.

(** JavaScript truthiness, as used by [if (x)], [!x], [a && b], [a || b]. *)
Definition js_truthy (v : value) : bool :=
  match v with
  | VUndefined | VNull => false
  | VBool b => b
  | VNum z => negb (z =? 0)%Z
  | VStr s => negb (s =? "")
  | VOid _ | VDate _ => true
  end.

(** Truthiness of an aggregation expression ([$and], [$cond]): [false],
    [null], [0] and a missing field are false, every other value is true,
    the empty string included. *)
Definition agg_truthy (v : value) : bool :=
  match v with
  | VUndefined | VNull => false
  | VBool b => b
  | VNum z => negb (z =? 0)%Z
  | VStr _ | VOid _ | VDate _ => true
  end.

(** The BSON comparison order, used by the aggregation operators [$eq],
    [$ne], [$lt]: values of different types are ordered by the canonical
    rank of their type, and a missing field ranks below [null]. *)
Definition canonical_type (v : value) : Z :=
  match v with
  | VUndefined => 0
  | VNull => 5
  | VNum _ => 10
  | VStr _ => 15
  | VOid _ => 35
  | VBool _ => 40
  | VDate _ => 45
  end.

Definition bson_compare (a b : value) : comparison :=
  match a, b with
  | VBool x, VBool y => Bool.compare x y
  | VNum x, VNum y => (x ?= y)%Z
  | VStr x, VStr y => String.compare x y
  | VOid x, VOid y => (x ?= y)%N
  | VDate x, VDate y => (x ?= y)%Z
  | _, _ => (canonical_type a ?= canonical_type b)%Z
  end.

(** ** Documents *)

(** The subdocuments of [subtasks] and [comments]. The identifier of a
    comment is read by no route and is left out. *)
Record Subtask := {
  st_id : ObjectId;
  st_title : string;
  st_completed : bool;
  st_createdAt : Z
}.

Record Comment := {
  cm_text : string;
  cm_user : ObjectId;
  cm_createdAt : Z
}.

(** The paths of [todoSchema]. An optional path that was never set is absent
    from the stored document ([None]). [attachments] has no route that
    touches it and is left out. *)
Record Todo := {
  _id : ObjectId;
  title : string;
  description : option string;
  priority : string;
  status : string;
  category : option string;
  tags : list string;
  dueDate : option Z;
  dueTime : option string;
  completedAt : option Z;
  starred : bool;
  archived : bool;
  order : Z;
  user : ObjectId;
  subtasks : list Subtask;
  comments : list Comment;
  createdAt : Z;
  updatedAt : Z
}.

Global Instance Subtask_eq_dec : EqDecision Subtask.
Proof. solve_decision. Defined.

Global Instance Comment_eq_dec : EqDecision Comment.
Proof. solve_decision. Defined.

Global Instance Todo_eq_dec : EqDecision Todo.
Proof. solve_decision. Defined.

Definition opt_value {A} (f : A → value) (o : option A) : value :=
  match o with
  | Some a => f a
  | None => VUndefined
  end.

(** The value a stored document has at a top-level path. *)
Definition field (t : Todo) (path : string) : value :=
  if path =? "_id" then VOid (_id t)
  else if path =? "title" then VStr (title t)
  else if path =? "description" then opt_value VStr (description t)
  else if path =? "priority" then VStr (priority t)
  else if path =? "status" then VStr (status t)
  else if path =? "category" then opt_value VStr (category t)
  else if path =? "dueDate" then opt_value VDate (dueDate t)
  else if path =? "dueTime" then opt_value VStr (dueTime t)
  else if path =? "completedAt" then opt_value VDate (completedAt t)
  else if path =? "starred" then VBool (starred t)
  else if path =? "archived" then VBool (archived t)
  else if path =? "order" then VNum (order t)
  else if path =? "user" then VOid (user t)
  else if path =? "createdAt" then VDate (createdAt t)
  else if path =? "updatedAt" then VDate (updatedAt t)
  else VUndefined.

(** ** Strings *)

(** The white space characters of one byte: TAB, LF, VT, FF, CR and the
    space. *)
Definition is_space (c : ascii) : bool :=
  let n := nat_of_ascii c in
  (n =? 32)%nat || ((9 <=? n)%nat && (n <=? 13)%nat).

(** The white space character of two bytes: the no-break space U+00A0. *)
Definition is_space2 (a b : ascii) : bool :=
  (nat_of_ascii a =? 194)%nat && (nat_of_ascii b =? 160)%nat.

(** The white space characters of three bytes: U+1680, U+2000 to U+200A,
    the line and paragraph separators U+2028 and U+2029, U+202F, U+205F,
    U+3000 and the byte order mark U+FEFF. *)
Definition is_space3 (a b c : ascii) : bool :=
  let x := nat_of_ascii a in
  let y := nat_of_ascii b in
  let z := nat_of_ascii c in
  ((x =? 225) && (y =? 154) && (z =? 128))%nat ||
  ((x =? 226) && (y =? 128) &&
   (((128 <=? z) && (z <=? 138)) || (z =? 168) || (z =? 169) || (z =? 175)))%nat ||
  ((x =? 226) && (y =? 129) && (z =? 159))%nat ||
  ((x =? 227) && (y =? 128) && (z =? 128))%nat ||
  ((x =? 239) && (y =? 187) && (z =? 191))%nat.

(** Drops the white space a string starts with. With [backwards] the string
    is read from its end, so the bytes of a character come last byte
    first. *)
Fixpoint strip (backwards : bool) (s : string) : string :=
  match s with
  | String a r =>
      if is_space a then strip backwards r
      else
        match r with
        | String b r2 =>
            if (if backwards then is_space2 b a else is_space2 a b)
            then strip backwards r2
            else
              match r2 with
              | String c r3 =>
                  if (if backwards then is_space3 c b a else is_space3 a b c)
                  then strip backwards r3
                  else s
              | EmptyString => s
              end
        | EmptyString => s
        end
  | EmptyString => EmptyString
  end.

Definition trim_start (s : string) : string := strip false s.

Definition rev_string (s : string) : string :=
  string_of_list_ascii (rev (list_ascii_of_string s)).

Definition trim_end (s : string) : string :=
  rev_string (strip true (rev_string s)).

(** [String.prototype.trim], and the [trim()] sanitizer of the validators. *)
Definition trim (s : string) : string := trim_end (trim_start s).

(** The lower case of an ASCII letter; every other byte is left alone. *)
Definition lower (c : ascii) : ascii :=
  let n := nat_of_ascii c in
  if (65 <=? n)%nat && (n <=? 90)%nat then ascii_of_nat (n + 32) else c.

Definition isIn (s : string) (allowed : list string) : bool :=
  existsb (String.eqb s) allowed.

(** ** Regular expressions

    The database hands the pattern of a [$regex] condition to its regular
    expression engine. The fragment of the pattern language modelled here is
    the one made of ordinary characters, which match themselves, and of the
    dot, which matches any character but a line feed. A pattern that uses
    another metacharacter is outside the fragment: [compile] gives [None]
    and so does every query that carries the pattern. *)

Inductive atom :=
| Lit (c : ascii)
| AnyChar.

Definition metachars : list ascii := list_ascii_of_string "\^$.|?*+()[]{}".

Definition is_meta (c : ascii) : bool := existsb (Ascii.eqb c) metachars.

Fixpoint compile (pat : string) : option (list atom) :=
  match pat with
  | EmptyString => Some []
  | String c r =>
      if Ascii.eqb c "." then cons AnyChar <$> compile r
      else if is_meta c then None
      else cons (Lit c) <$> compile r
  end.

Definition atom_accepts (caseless : bool) (a : atom) (c : ascii) : bool :=
  match a with
  | Lit x => if caseless then Ascii.eqb (lower x) (lower c) else Ascii.eqb x c
  | AnyChar => negb (Ascii.eqb c "010")
  end.

(** The atoms match a prefix of the subject. *)
Fixpoint match_here (caseless : bool) (atoms : list atom) (s : string) : bool :=
  match atoms with
  | [] => true
  | a :: rest =>
      match s with
      | EmptyString => false
      | String c r => atom_accepts caseless a c && match_here caseless rest r
      end
  end.

(** An unanchored pattern matches when it matches at some position. *)
Fixpoint match_from (caseless : bool) (atoms : list atom) (s : string) : bool :=
  match_here caseless atoms s ||
  match s with
  | EmptyString => false
  | String _ r => match_from caseless atoms r
  end.

(** [{ $regex: pat, $options: opts }] applied to a string. *)
Definition regex_test (pat : value) (opts : string) (subject : string) : option bool :=
  caseless ← (if opts =? "" then Some false
              else if opts =? "i" then Some true else None);
  atoms ← (match pat with VStr p => compile p | _ => None end);
  Some (match_from caseless atoms subject).

(** ** Query filters *)

Inductive cond :=
| CEq (v : value)                      (* path: v *)
| CRegex (pat : value) (opts : string) (* path: { $regex: pat, $options: opts } *)
| CIn (vs : list value).               (* path: { $in: vs } *)

Inductive clause :=
| Cond (c : cond)
| Or (alts : list (string * cond)).    (* $or: [ { path: c }, ... ] *)

(** Equality in the query language: [null] also selects the documents that
    lack the path. *)
Definition query_eq (v fv : value) : bool :=
  match v with
  | VNull | VUndefined =>
      match fv with
      | VNull | VUndefined => true
      | _ => false
      end
  | _ => bool_decide (fv = v)
  end.

Definition cond_holds (c : cond) (fv : value) : option bool :=
  match c with
  | CEq v => Some (query_eq v fv)
  | CRegex pat opts =>
      match fv with
      | VStr s => regex_test pat opts s
      | _ => match regex_test pat opts "" with Some _ => Some false | None => None end
      end
  | CIn vs => Some (existsb (λ v, query_eq v fv) vs)
  end.

Definition and_opt (x y : option bool) : option bool :=
  match x, y with
  | Some a, Some b => Some (a && b)
  | _, _ => None
  end.

Definition or_opt (x y : option bool) : option bool :=
  match x, y with
  | Some a, Some b => Some (a || b)
  | _, _ => None
  end.

Definition clause_holds (t : Todo) (path : string) (c : clause) : option bool :=
  match c with
  | Cond c => cond_holds c (field t path)
  | Or alts =>
      foldr (λ alt acc, or_opt (cond_holds alt.2 (field t alt.1)) acc)
            (Some false) alts
  end.

(** Mongoose casts the filter of a query through the schema before the
    database gets it, and runs the setters of each path on the way: a string
    that is compared with a path declared [trim: true] is trimmed. The
    pattern of a [$regex] goes through as it is. *)
Definition trimmed_paths : list string :=
  ["title"; "description"; "category"; "dueTime"].

Definition cast_value (path : string) (v : value) : value :=
  match v with
  | VStr s => if isIn path trimmed_paths then VStr (trim s) else v
  | _ => v
  end.

Definition cast_cond (path : string) (c : cond) : cond :=
  match c with
  | CEq v => CEq (cast_value path v)
  | CRegex pat opts => CRegex pat opts
  | CIn vs => CIn (cast_value path <$> vs)
  end.

Definition cast (path : string) (c : clause) : clause :=
  match c with
  | Cond c => Cond (cast_cond path c)
  | Or alts => Or ((λ alt, (alt.1, cast_cond alt.1 alt.2)) <$> alts)
  end.

(** A document satisfies a filter when it satisfies every entry of it, once
    cast. *)
Definition matches (q : gmap string clause) (t : Todo) : option bool :=
  map_fold (λ path c acc, and_opt (clause_holds t path (cast path c)) acc)
           (Some true) q.

(** [Model.find(filter)]: the matching documents, in storage order. *)
Fixpoint find (q : gmap string clause) (coll : list Todo) : option (list Todo) :=
  match coll with
  | [] => Some []
  | t :: rest =>
      b ← matches q t;
      found ← find q rest;
      Some (if b : bool then t :: found else found)
  end.

(** [Model.countDocuments(filter)]. *)
Definition countDocuments (q : gmap string clause) (coll : list Todo) : option nat :=
  length <$> find q coll.

(** [.sort({ order: 1, createdAt: -1 })]. The database leaves the order of
    documents with equal keys open; [sort_todos] is the outcome in which
    they keep their storage order, and the only outcome when the keys tell
    the documents apart. *)
Definition sorts_before (a b : Todo) : bool :=
  (order a <? order b)%Z ||
  ((order a =? order b)%Z && (createdAt b <=? createdAt a)%Z).

Fixpoint insert_sorted (t : Todo) (l : list Todo) : list Todo :=
  match l with
  | [] => [t]
  | x :: r => if sorts_before t x then t :: l else x :: insert_sorted t r
  end.

Definition sort_todos (l : list Todo) : list Todo := foldr insert_sorted [] l.

(** ** The listing query: [todoSchema.statics.findByUser] *)

(** Property access [o.k] on a plain object. *)
Definition get (o : gmap string value) (k : string) : value :=
  default VUndefined (o !! k).

Definition search_clause (pat : value) : clause :=
  Or [("title", CRegex pat "i"); ("description", CRegex pat "i")].

(** The filter that [findByUser] builds from [options]. *)
Definition findByUser_query (userId : ObjectId) (options : gmap string value)
  : gmap string clause :=
  let query : gmap string clause :=
    {[ "user" := Cond (CEq (VOid userId));
       "archived" := Cond (CEq (VBool false)) ]} in
  let query :=
    if js_truthy (get options "status")
    then <["status" := Cond (CEq (get options "status"))]> query else query in
  let query :=
    if js_truthy (get options "priority")
    then <["priority" := Cond (CEq (get options "priority"))]> query else query in
  let query :=
    if js_truthy (get options "category")
    then <["category" := Cond (CEq (get options "category"))]> query else query in
  let query :=
    if bool_decide (get options "starred" ≠ VUndefined)
    then <["starred" := Cond (CEq (get options "starred"))]> query else query in
  let query :=
    if js_truthy (get options "search")
    then <["$or" := search_clause (get options "search")]> query else query in
  query.

(** [findByUser]: the matching documents in the listing order. The two
    [populate] calls replace user references by user records and select
    nothing. *)
Definition findByUser (userId : ObjectId) (options : gmap string value)
    (coll : list Todo) : option (list Todo) :=
  sort_todos <$> find (findByUser_query userId options) coll.

(** ** Responses *)

Record Response (A : Type) := mkResponse {
  statusCode : Z;
  success : bool;
  message : option string;
  error : option string;
  data : option A
}.

Arguments mkResponse {A}.
Arguments statusCode {A}.
Arguments success {A}.
Arguments message {A}.
Arguments error {A}.
Arguments data {A}.

(** [validateRequest] answering for a request that fails a validator. *)
Definition validation_failed {A} : Response A :=
  mkResponse 400 false (Some "Validation failed") None None.

Definition not_found {A} : Response A :=
  mkResponse 404 false (Some "Todo not found") None None.

(** The [catch] block every handler ends with. *)
Definition server_error {A} (msg : string) : Response A :=
  mkResponse 500 false (Some "Server error") (Some msg) None.

Definition ok {A} (msg : option string) (d : option A) : Response A :=
  mkResponse 200 true msg None d.

(** ** GET / *)

(** [req.query]. [page] and [limit] arrive as text; a value of [q_page] or
    [q_limit] is the integer that text denotes, and text that denotes none
    is rejected by [isInt] and has no counterpart here. *)
Record ListQuery := {
  q_status : option string;
  q_priority : option string;
  q_category : option string;
  q_starred : option string;
  q_search : option string;
  q_page : option Z;
  q_limit : option Z
}.

(** [.optional()]: an absent parameter passes. *)
Definition optional {A} (check : A → bool) (o : option A) : bool :=
  match o with
  | Some a => check a
  | None => true
  end.

Definition valid_list_query (rq : ListQuery) : bool :=
  optional (λ v, (v =? "all") || isIn v ["pending"; "in-progress"; "completed"])
           (q_status rq) &&
  optional (λ v, (v =? "all") || isIn v ["low"; "medium"; "high"])
           (q_priority rq) &&
  optional (λ v, (v =? "all") || (0 <? String.length (trim v))%nat)
           (q_category rq) &&
  optional (λ v, (v =? "all") || (v =? "true") || (v =? "false"))
           (q_starred rq) &&
  optional (λ p, (1 <=? p)%Z) (q_page rq) &&
  optional (λ l, (1 <=? l)%Z && (l <=? 100)%Z) (q_limit rq).

(** The test [x && x !== 'all'] on a query parameter. *)
Definition is_filter (o : option string) : bool :=
  match o with
  | Some s => negb (s =? "") && negb (s =? "all")
  | None => false
  end.

(** The [options] object handed to [findByUser]: [search] first (trimmed by
    its sanitizer), then the filters that are not ['all'], then the removal
    of the keys whose value is [undefined]. *)
Definition list_options (rq : ListQuery) : gmap string value :=
  let options : gmap string value :=
    {[ "search" := opt_value VStr (trim <$> q_search rq) ]} in
  let options :=
    if is_filter (q_status rq)
    then <["status" := opt_value VStr (q_status rq)]> options else options in
  let options :=
    if is_filter (q_priority rq)
    then <["priority" := opt_value VStr (q_priority rq)]> options else options in
  let options :=
    if is_filter (q_category rq)
    then <["category" := opt_value VStr (q_category rq)]> options else options in
  let options :=
    if is_filter (q_starred rq)
    then <["starred" := VBool (bool_decide (q_starred rq = Some "true"))]> options
    else options in
  filter (λ kv, kv.2 ≠ VUndefined) options.

(** The filter of the [countDocuments] call of the handler. *)
Definition count_query (userId : ObjectId) (search : value) : gmap string clause :=
  let query : gmap string clause :=
    {[ "user" := Cond (CEq (VOid userId));
       "archived" := Cond (CEq (VBool false)) ]} in
  if js_truthy search then <["$or" := search_clause search]> query else query.

(** [Math.ceil(a / b)] for a count [a] and a positive [b]. *)
Definition ceil_div (a b : Z) : Z :=
  (if a mod b =? 0 then a / b else a / b + 1)%Z.

(** The [pagination] object of a listing. [current] is the [page]
    parameter, which the handler reports as it received it, text for a
    parameter that was given; here it is the integer of that text. *)
Record Pagination := {
  current : Z;
  pages : Z;
  total : Z
}.

Record ListData := {
  todos : list Todo;
  pagination : Pagination
}.

(** The handler of [GET /] for the authenticated user [uid]. The result is
    [None] when the search text is a pattern outside the modelled fragment. *)
Definition get_todos (uid : ObjectId) (rq : ListQuery) (coll : list Todo)
  : option (Response ListData) :=
  if negb (valid_list_query rq) then Some validation_failed
  else
    let search := opt_value VStr (trim <$> q_search rq) in
    let page := default 1%Z (q_page rq) in
    let limit := default 20%Z (q_limit rq) in
    let options := list_options rq in
    found ← findByUser uid options coll;
    let todos :=
      take (Z.to_nat (limit * 1)) (drop (Z.to_nat ((page - 1) * limit)) found) in
    total ← countDocuments (count_query uid search) coll;
    Some (ok None (Some {|
      todos := todos;
      pagination := {| current := page;
                       pages := ceil_div (Z.of_nat total) limit;
                       total := Z.of_nat total |}
    |})).

(** ** Statistics: [todoSchema.statics.getStats]

    The operators of the aggregation pipeline, as functions on values. *)

Definition op_and (vs : list value) : value := VBool (forallb agg_truthy vs).

Definition op_cond (c a b : value) : value := if agg_truthy c then a else b.

Definition op_eq (a b : value) : value :=
  VBool (match bson_compare a b with Eq => true | _ => false end).

Definition op_ne (a b : value) : value :=
  VBool (match bson_compare a b with Eq => false | _ => true end).

Definition op_lt (a b : value) : value :=
  VBool (match bson_compare a b with Lt => true | _ => false end).

(** [$concat]: [null] as soon as one argument is [null] or missing. *)
Definition op_concat (vs : list value) : value :=
  foldr (λ v acc,
           match v, acc with
           | VStr a, VStr b => VStr (a ++ b)
           | _, _ => VNull
           end) (VStr "") vs.

(** [$sum: { $cond: [c, 1, 0] }] for one document. *)
Definition one_if (c : value) : Z := if agg_truthy c then 1%Z else 0%Z.

Record Stats := {
  stats_total : Z;
  stats_completed : Z;
  stats_pending : Z;
  stats_inProgress : Z;
  stats_highPriority : Z;
  stats_overdue : Z
}.

Definition no_stats : Stats :=
  {| stats_total := 0; stats_completed := 0; stats_pending := 0;
     stats_inProgress := 0; stats_highPriority := 0; stats_overdue := 0 |}.

Section GetStats.

(** The two date operators of the database are taken as given:
    [$dateToString] with the format ['%Y-%m-%d'], and the parser behind
    [$dateFromString], which gives [None] for a string it rejects. *)
Variable dateToString : Z → string.
Variable dateFromString : string → option Z.

Definition op_dateToString (d : value) : value :=
  match d with
  | VDate z => VStr (dateToString z)
  | _ => VNull
  end.

Definition op_dateFromString (dateString onError onNull : value) : value :=
  match dateString with
  | VStr s =>
      match dateFromString s with
      | Some z => VDate z
      | None => onError
      end
  | VNull | VUndefined => onNull
  | _ => onError
  end.

(** The [$addFields] stage. A field whose expression evaluates to a missing
    value is not added: it reads as [VUndefined] in the next stage. *)
Definition combinedDueDateTime (t : Todo) : value :=
  op_cond (op_and [field t "dueDate"; field t "dueTime"])
    (op_dateFromString
       (op_concat [op_dateToString (field t "dueDate");
                   VStr "T";
                   field t "dueTime";
                   VStr ":00.000Z"])
       (field t "dueDate")
       (field t "dueDate"))
    (field t "dueDate").

(** The condition under the [overdue] accumulator. *)
Definition overdue_cond (now : Z) (t : Todo) : value :=
  op_and [op_ne (field t "status") (VStr "completed");
          op_ne (combinedDueDateTime t) VNull;
          op_lt (combinedDueDateTime t) (VDate now)].

(** The [$group] stage, one document at a time. *)
Definition group_step (now : Z) (acc : Stats) (t : Todo) : Stats :=
  {| stats_total := stats_total acc + 1;
     stats_completed :=
       stats_completed acc + one_if (op_eq (field t "status") (VStr "completed"));
     stats_pending :=
       stats_pending acc + one_if (op_eq (field t "status") (VStr "pending"));
     stats_inProgress :=
       stats_inProgress acc + one_if (op_eq (field t "status") (VStr "in-progress"));
     stats_highPriority :=
       stats_highPriority acc + one_if (op_eq (field t "priority") (VStr "high"));
     stats_overdue := stats_overdue acc + one_if (overdue_cond now t) |}%Z.

(** The [$match] stage. *)
Definition stats_match (userId : ObjectId) (t : Todo) : bool :=
  query_eq (VOid userId) (field t "user") &&
  query_eq (VBool false) (field t "archived").

(** [getStats]: the output of the pipeline, which is empty when no document
    passes [$match] and one group otherwise. *)
Definition getStats (userId : ObjectId) (now : Z) (coll : list Todo) : list Stats :=
  match List.filter (stats_match userId) coll with
  | [] => []
  | docs => [fold_left (group_step now) docs no_stats]
  end.

(** The handler of [GET /stats/overview]. *)
Definition get_stats (uid : ObjectId) (now : Z) (coll : list Todo) : Response Stats :=
  ok None (Some (default no_stats (head (getStats uid now coll)))).

End GetStats.

(** ** Writing documents *)

(** A todo with new values at the paths that the instance methods, the
    pre-save hook and the timestamps assign. *)
Definition amend (t : Todo) (st : string) (finished : option Z)
    (subs : list Subtask) (cms : list Comment) (upd : Z) : Todo :=
  {| _id := _id t; title := title t; description := description t;
     priority := priority t; status := st; category := category t;
     tags := tags t; dueDate := dueDate t; dueTime := dueTime t;
     completedAt := finished; starred := starred t; archived := archived t;
     order := order t; user := user t; subtasks := subs; comments := cms;
     createdAt := createdAt t; updatedAt := upd |}.

Definition set_status (st : string) (t : Todo) : Todo :=
  amend t st (completedAt t) (subtasks t) (comments t) (updatedAt t).

Definition set_completedAt (finished : option Z) (t : Todo) : Todo :=
  amend t (status t) finished (subtasks t) (comments t) (updatedAt t).

Definition set_subtasks (subs : list Subtask) (t : Todo) : Todo :=
  amend t (status t) (completedAt t) subs (comments t) (updatedAt t).

Definition set_comments (cms : list Comment) (t : Todo) : Todo :=
  amend t (status t) (completedAt t) (subtasks t) cms (updatedAt t).

Definition set_updatedAt (upd : Z) (t : Todo) : Todo :=
  amend t (status t) (completedAt t) (subtasks t) (comments t) upd.

(** The hook [todoSchema.pre('save')], for a document loaded as [orig] and
    changed into [doc]: [isModified('status')] compares the two. *)
Definition pre_save (orig doc : Todo) (now : Z) : Todo :=
  if negb (status doc =? status orig)
     && (status doc =? "completed")
     && bool_decide (completedAt doc = None)
  then set_completedAt (Some now) doc
  else doc.

Definition replace_doc (d : Todo) (coll : list Todo) : list Todo :=
  map (λ x, if (_id x =? _id d)%N then d else x) coll.

(** [doc.save()] for a changed document: the hook, the [updatedAt]
    timestamp, and the write of the whole document. Every handler saves a
    document it has just read from the collection, so the write finds its
    document. *)
Definition save (orig doc : Todo) (now : Z) (coll : list Todo) : Todo * list Todo :=
  let saved := set_updatedAt now (pre_save orig doc now) in
  (saved, replace_doc saved coll).

(** *** Instance methods *)

Definition toggleStatus (t : Todo) (now : Z) (coll : list Todo) : Todo * list Todo :=
  let doc :=
    if status t =? "completed"
    then set_completedAt None (set_status "pending" t)
    else set_completedAt (Some now) (set_status "completed" t) in
  save t doc now coll.

Definition addSubtask (t : Todo) (sub : Subtask) (now : Z) (coll : list Todo)
  : Todo * list Todo :=
  save t (set_subtasks (subtasks t ++ [sub])%list t) now coll.

(** [this.subtasks.id(subtaskId)] *)
Definition subtask_by_id (sid : ObjectId) (subs : list Subtask) : option Subtask :=
  List.find (λ s, (st_id s =? sid)%N) subs.

Definition flip_completed (s : Subtask) : Subtask :=
  {| st_id := st_id s; st_title := st_title s;
     st_completed := negb (st_completed s); st_createdAt := st_createdAt s |}.

(** The subtask that [subtask_by_id] returns, flipped in place. *)
Fixpoint flip_subtask (sid : ObjectId) (subs : list Subtask) : list Subtask :=
  match subs with
  | [] => []
  | s :: r => if (st_id s =? sid)%N then flip_completed s :: r
              else s :: flip_subtask sid r
  end.

(** [toggleSubtask] throws when the todo has no such subtask: [inl] carries
    the message of the error. *)
Definition toggleSubtask (t : Todo) (sid : ObjectId) (now : Z) (coll : list Todo)
  : string + Todo * list Todo :=
  match subtask_by_id sid (subtasks t) with
  | Some _ => inr (save t (set_subtasks (flip_subtask sid (subtasks t)) t) now coll)
  | None => inl "Subtask not found"
  end.

Definition addComment (t : Todo) (cm : Comment) (now : Z) (coll : list Todo)
  : Todo * list Todo :=
  save t (set_comments (comments t ++ [cm])%list t) now coll.

(** *** Model operations *)

(** A filter without [$regex] decides every document; a document is
    selected when the filter holds of it. *)
Definition selects (q : gmap string clause) (t : Todo) : bool :=
  bool_decide (matches q t = Some true).

(** [{ _id: id, user: uid }] *)
Definition own_todo (id uid : ObjectId) : gmap string clause :=
  {[ "_id" := Cond (CEq (VOid id)); "user" := Cond (CEq (VOid uid)) ]}.

(** [{ _id: { $in: ids }, user: uid }] *)
Definition own_todos (ids : list ObjectId) (uid : ObjectId) : gmap string clause :=
  {[ "_id" := Cond (CIn (VOid <$> ids)); "user" := Cond (CEq (VOid uid)) ]}.

Definition findOne (q : gmap string clause) (coll : list Todo) : option Todo :=
  List.find (selects q) coll.

(** A body that is a document of plain fields, read through the schema: the
    top-level scalar paths it may set. A path that the body does not
    mention, or mentions with the value [undefined], is [None] and stays as
    it is. The routes hand [req.body] on unfiltered; the bodies covered here
    are those that name scalar paths with values of their type. A body that
    names an array path ([tags], [subtasks], [comments]) or a timestamp, that
    gives [null] for a path, or that is made of update operators ([$set],
    [$unset], [$rename], ...) or is an aggregation pipeline, has no
    counterpart in this type; the [_id] of the body of a create is the
    [newId] of [post_todo]. *)
Record TodoBody := {
  b_title : option string;
  b_description : option string;
  b_priority : option string;
  b_status : option string;
  b_category : option string;
  b_dueDate : option Z;
  b_dueTime : option string;
  b_completedAt : option Z;
  b_starred : option bool;
  b_archived : option bool;
  b_order : option Z;
  b_user : option ObjectId
}.

(** [new] where the update sets the path, [old] otherwise. *)
Definition over {A} (new old : option A) : option A :=
  match new with
  | Some _ => new
  | None => old
  end.

(** One document after an update ([$set] of the mentioned paths); the
    schema option [timestamps] adds [updatedAt] to every update. *)
Definition apply_update (u : TodoBody) (now : Z) (t : Todo) : Todo :=
  {| _id := _id t;
     title := default (title t) (b_title u);
     description := over (b_description u) (description t);
     priority := default (priority t) (b_priority u);
     status := default (status t) (b_status u);
     category := over (b_category u) (category t);
     tags := tags t;
     dueDate := over (b_dueDate u) (dueDate t);
     dueTime := over (b_dueTime u) (dueTime t);
     completedAt := over (b_completedAt u) (completedAt t);
     starred := default (starred t) (b_starred u);
     archived := default (archived t) (b_archived u);
     order := default (order t) (b_order u);
     user := default (user t) (b_user u);
     subtasks := subtasks t;
     comments := comments t;
     createdAt := createdAt t;
     updatedAt := now |}.

(** [findOneAndUpdate(q, u, { new: true })]: the first selected document is
    updated and returned; no middleware of [save] runs. *)
Fixpoint findOneAndUpdate (q : gmap string clause) (u : TodoBody) (now : Z)
    (coll : list Todo) : option Todo * list Todo :=
  match coll with
  | [] => (None, [])
  | t :: rest =>
      if selects q t then (Some (apply_update u now t), apply_update u now t :: rest)
      else let r := findOneAndUpdate q u now rest in (r.1, t :: r.2)
  end.

Fixpoint findOneAndDelete (q : gmap string clause) (coll : list Todo)
  : option Todo * list Todo :=
  match coll with
  | [] => (None, [])
  | t :: rest =>
      if selects q t then (Some t, rest)
      else let r := findOneAndDelete q rest in (r.1, t :: r.2)
  end.

(** The result object of [updateMany] and [deleteMany]; a property the
    operation does not report reads as [undefined]. *)
Record WriteResult := {
  matchedCount : value;
  modifiedCount : value;
  deletedCount : value
}.

Definition count_of {A} (l : list A) : value := VNum (Z.of_nat (length l)).

(** [updateMany(q, u)]: every selected document is updated; [modifiedCount]
    counts those that the update changed. *)
Definition updateMany (q : gmap string clause) (u : TodoBody) (now : Z)
    (coll : list Todo) : WriteResult * list Todo :=
  let hit := List.filter (selects q) coll in
  ({| matchedCount := count_of hit;
      modifiedCount :=
        count_of (List.filter (λ t, bool_decide (apply_update u now t ≠ t)) hit);
      deletedCount := VUndefined |},
   map (λ t, if selects q t then apply_update u now t else t) coll).

Definition deleteMany (q : gmap string clause) (coll : list Todo)
  : WriteResult * list Todo :=
  ({| matchedCount := VUndefined;
      modifiedCount := VUndefined;
      deletedCount := count_of (List.filter (selects q) coll) |},
   List.filter (λ t, negb (selects q t)) coll).

(** ** The routes

    Each handler takes the authenticated user [uid], the instant [now] where
    it needs one, and the collection; it gives the response and the
    collection it leaves. Identifiers in paths are typed, so the [isMongoId]
    checks have nothing left to refuse. *)

(** [isLength({ min, max })] and [maxlength], on the bytes of the string:
    its characters when the text is ASCII, and at least as many as its
    characters otherwise. *)
Definition length_in (lo hi : nat) (s : string) : bool :=
  (lo <=? String.length s)%nat && (String.length s <=? hi)%nat.

(** The [trim()] sanitizers of the body validators. *)
Definition sanitize_body (b : TodoBody) : TodoBody :=
  {| b_title := trim <$> b_title b;
     b_description := trim <$> b_description b;
     b_priority := b_priority b;
     b_status := b_status b;
     b_category := trim <$> b_category b;
     b_dueDate := b_dueDate b;
     b_dueTime := trim <$> b_dueTime b;
     b_completedAt := b_completedAt b;
     b_starred := b_starred b;
     b_archived := b_archived b;
     b_order := b_order b;
     b_user := b_user b |}.

(** *** GET /:id *)

Definition get_todo (uid id : ObjectId) (coll : list Todo) : Response Todo :=
  match findOne (own_todo id uid) coll with
  | None => not_found
  | Some t => ok None (Some t)
  end.

(** *** POST / *)

Definition valid_create_body (b : TodoBody) : bool :=
  match b_title b with
  | Some s => negb (s =? "") && length_in 1 200 (trim s)
  | None => false
  end &&
  optional (λ d, length_in 0 1000 (trim d)) (b_description b) &&
  optional (λ p, isIn p ["low"; "medium"; "high"]) (b_priority b) &&
  optional (λ c, length_in 0 50 (trim c)) (b_category b).

(** [new Todo({ ...req.body, user: req.user.id })] with the defaults of the
    schema. [newId] is the identifier of the new document: the [_id] of the
    body when it names one, else the one the driver generates. *)
Definition new_todo (newId uid : ObjectId) (b : TodoBody) (now : Z) : Todo :=
  {| _id := newId;
     title := default "" (b_title b);
     description := b_description b;
     priority := default "medium" (b_priority b);
     status := default "pending" (b_status b);
     category := b_category b;
     tags := [];
     dueDate := b_dueDate b;
     dueTime := b_dueTime b;
     completedAt := b_completedAt b;
     starred := default false (b_starred b);
     archived := default false (b_archived b);
     order := default 0%Z (b_order b);
     user := uid;
     subtasks := [];
     comments := [];
     createdAt := now;
     updatedAt := now |}.

(** The validators that the schema runs when a document is saved. *)
Definition schema_valid (t : Todo) : bool :=
  length_in 1 200 (title t) &&
  optional (length_in 0 1000) (description t) &&
  isIn (priority t) ["low"; "medium"; "high"] &&
  isIn (status t) ["pending"; "in-progress"; "completed"] &&
  optional (length_in 0 50) (category t).

(** The pre-save hook on a new document, where every path that was given a
    value counts as modified. *)
Definition pre_save_new (doc : Todo) (now : Z) : Todo :=
  if (status doc =? "completed") && bool_decide (completedAt doc = None)
  then set_completedAt (Some now) doc
  else doc.

Definition post_todo (uid newId : ObjectId) (body : TodoBody) (now : Z)
    (coll : list Todo) : Response Todo * list Todo :=
  if negb (valid_create_body body) then (validation_failed, coll)
  else
    let doc := new_todo newId uid (sanitize_body body) now in
    if negb (schema_valid doc) then (server_error "Todo validation failed", coll)
    else if existsb (λ t, (_id t =? newId)%N) coll
    then (server_error "E11000 duplicate key error", coll)
    else
      let saved := pre_save_new doc now in
      (mkResponse 201 true (Some "Todo created successfully") None (Some saved),
       (coll ++ [saved])%list).

(** *** PUT /:id *)

Definition valid_update_body (b : TodoBody) : bool :=
  optional (λ s, length_in 1 200 (trim s)) (b_title b) &&
  optional (λ d, length_in 0 1000 (trim d)) (b_description b) &&
  optional (λ p, isIn p ["low"; "medium"; "high"]) (b_priority b) &&
  optional (λ s, isIn s ["pending"; "in-progress"; "completed"]) (b_status b) &&
  optional (λ c, length_in 0 50 (trim c)) (b_category b).

(** The handler hands [req.body] to [findOneAndUpdate] as it is; for a body
    of plain fields, the kind [TodoBody] covers, the update sets the paths
    the body names. *)
Definition put_todo (uid id : ObjectId) (body : TodoBody) (now : Z)
    (coll : list Todo) : Response Todo * list Todo :=
  if negb (valid_update_body body) then (validation_failed, coll)
  else
    let r := findOneAndUpdate (own_todo id uid) (sanitize_body body) now coll in
    match r.1 with
    | None => (not_found, r.2)
    | Some t => (ok (Some "Todo updated successfully") (Some t), r.2)
    end.

(** *** PATCH /:id/toggle *)

Definition patch_toggle (uid id : ObjectId) (now : Z) (coll : list Todo)
  : Response Todo * list Todo :=
  match findOne (own_todo id uid) coll with
  | None => (not_found, coll)
  | Some t =>
      let r := toggleStatus t now coll in
      (ok (Some "Todo status toggled successfully") (Some r.1), r.2)
  end.

(** *** DELETE /:id *)

Definition delete_todo (uid id : ObjectId) (coll : list Todo)
  : Response Todo * list Todo :=
  let r := findOneAndDelete (own_todo id uid) coll in
  match r.1 with
  | None => (not_found, r.2)
  | Some _ => (ok (Some "Todo deleted successfully") None, r.2)
  end.

(** *** PATCH /:id/archive *)

Definition archive_update : TodoBody :=
  {| b_title := None; b_description := None; b_priority := None;
     b_status := None; b_category := None; b_dueDate := None;
     b_dueTime := None; b_completedAt := None; b_starred := None;
     b_archived := Some true; b_order := None; b_user := None |}.

Definition patch_archive (uid id : ObjectId) (now : Z) (coll : list Todo)
  : Response Todo * list Todo :=
  let r := findOneAndUpdate (own_todo id uid) archive_update now coll in
  match r.1 with
  | None => (not_found, r.2)
  | Some t => (ok (Some "Todo archived successfully") (Some t), r.2)
  end.

(** *** POST /:id/subtasks *)

(** [req.body] of the subtask route, read through the schema of a subtask:
    the handler pushes the body as it is, so besides [title], which the
    validators check, the new subtask takes [_id], [completed] and
    [createdAt] from the body when it names them. *)
Record SubtaskBody := {
  sb_id : option ObjectId;
  sb_title : option string;
  sb_completed : option bool;
  sb_createdAt : option Z
}.

Definition valid_title (lo hi : nat) (o : option string) : bool :=
  match o with
  | Some s => negb (s =? "") && length_in lo hi (trim s)
  | None => false
  end.

(** [newId] is the identifier generated for a subtask whose body names
    none. *)
Definition post_subtask (uid id newId : ObjectId) (body : SubtaskBody) (now : Z)
    (coll : list Todo) : Response Todo * list Todo :=
  if negb (valid_title 1 200 (sb_title body)) then (validation_failed, coll)
  else
    match findOne (own_todo id uid) coll with
    | None => (not_found, coll)
    | Some t =>
        let sub := {| st_id := default newId (sb_id body);
                      st_title := trim (default "" (sb_title body));
                      st_completed := default false (sb_completed body);
                      st_createdAt := default now (sb_createdAt body) |} in
        let r := addSubtask t sub now coll in
        (ok (Some "Subtask added successfully") (Some r.1), r.2)
    end.

(** *** PATCH /:id/subtasks/:subtaskId *)

Definition patch_subtask (uid id sid : ObjectId) (now : Z) (coll : list Todo)
  : Response Todo * list Todo :=
  match findOne (own_todo id uid) coll with
  | None => (not_found, coll)
  | Some t =>
      match toggleSubtask t sid now coll with
      | inr r => (ok (Some "Subtask toggled successfully") (Some r.1), r.2)
      | inl msg => (server_error msg, coll)
      end
  end.

(** *** POST /:id/comments *)

(** [req.body] of the comment route, read through the schema of a comment.
    The handler pushes [{ ...req.body, user: req.user.id }]: [user] is the
    requester whatever the body says, and [createdAt] is the one of the
    body when it names one. *)
Record CommentBody := {
  cb_text : option string;
  cb_createdAt : option Z
}.

Definition post_comment (uid id : ObjectId) (body : CommentBody) (now : Z)
    (coll : list Todo) : Response Todo * list Todo :=
  if negb (valid_title 1 500 (cb_text body)) then (validation_failed, coll)
  else
    match findOne (own_todo id uid) coll with
    | None => (not_found, coll)
    | Some t =>
        let cm := {| cm_text := trim (default "" (cb_text body));
                     cm_user := uid;
                     cm_createdAt := default now (cb_createdAt body) |} in
        let r := addComment t cm now coll in
        (ok (Some "Comment added successfully") (Some r.1), r.2)
    end.

(** *** POST /bulk *)

(** [req.body] of the bulk route. A request without [action] fails [isIn]
    as any text outside the list does. *)
Record BulkBody := {
  action : string;
  todoIds : list ObjectId;
  bulk_status : option string
}.

Definition valid_bulk_body (b : BulkBody) : bool :=
  isIn (action b) ["delete"; "archive"; "update-status"] &&
  (1 <=? length (todoIds b))%nat &&
  optional (λ s, isIn s ["pending"; "in-progress"; "completed"]) (bulk_status b).

(** [{ status, completedAt: status === 'completed' ? new Date() : undefined }] *)
Definition status_update (st : string) (now : Z) : TodoBody :=
  {| b_title := None; b_description := None; b_priority := None;
     b_status := Some st; b_category := None; b_dueDate := None;
     b_dueTime := None;
     b_completedAt := if st =? "completed" then Some now else None;
     b_starred := None; b_archived := None; b_order := None; b_user := None |}.

(** [a || b] *)
Definition js_or (a b : value) : value := if js_truthy a then a else b.

Record BulkData := {
  reported_modifiedCount : value
}.

Definition bulk_done (act : string) (r : WriteResult) : Response BulkData :=
  ok (Some ("Bulk " ++ act ++ " completed successfully"))
     (Some {| reported_modifiedCount := js_or (modifiedCount r) (deletedCount r) |}).

Definition post_bulk (uid : ObjectId) (body : BulkBody) (now : Z)
    (coll : list Todo) : Response BulkData * list Todo :=
  if negb (valid_bulk_body body) then (validation_failed, coll)
  else if action body =? "delete" then
    let r := deleteMany (own_todos (todoIds body) uid) coll in
    (bulk_done (action body) r.1, r.2)
  else if action body =? "archive" then
    let r := updateMany (own_todos (todoIds body) uid) archive_update now coll in
    (bulk_done (action body) r.1, r.2)
  else if action body =? "update-status" then
    match bulk_status body with
    | Some st =>
        if negb (js_truthy (VStr st))
        then (mkResponse 400 false
                (Some "Status is required for update-status action") None None,
              coll)
        else
          let r := updateMany (own_todos (todoIds body) uid)
                              (status_update st now) now coll in
          (bulk_done (action body) r.1, r.2)
    | None =>
        (mkResponse 400 false
           (Some "Status is required for update-status action") None None,
         coll)
    end
  else (server_error "Cannot read properties of undefined", coll).

(** ** Requests

    The exposed surface as one type, to speak of sequences of operations. *)

Inductive request :=
| GetTodos (rq : ListQuery)
| GetTodo (id : ObjectId)
| PostTodo (newId : ObjectId) (body : TodoBody)
| PutTodo (id : ObjectId) (body : TodoBody)
| PatchToggle (id : ObjectId)
| DeleteTodo (id : ObjectId)
| PatchArchive (id : ObjectId)
| PostSubtask (id newId : ObjectId) (body : SubtaskBody)
| PatchSubtask (id sid : ObjectId)
| PostComment (id : ObjectId) (body : CommentBody)
| GetStats
| PostBulk (body : BulkBody).

(** The collection after one request of user [uid] at [now]. *)
Definition serve (uid : ObjectId) (now : Z) (r : request) (coll : list Todo)
  : list Todo :=
  match r with
  | GetTodos _ | GetTodo _ | GetStats => coll
  | PostTodo newId body => (post_todo uid newId body now coll).2
  | PutTodo id body => (put_todo uid id body now coll).2
  | PatchToggle id => (patch_toggle uid id now coll).2
  | DeleteTodo id => (delete_todo uid id coll).2
  | PatchArchive id => (patch_archive uid id now coll).2
  | PostSubtask id newId body => (post_subtask uid id newId body now coll).2
  | PatchSubtask id sid => (patch_subtask uid id sid now coll).2
  | PostComment id body => (post_comment uid id body now coll).2
  | PostBulk body => (post_bulk uid body now coll).2
  end.


(** ** Notions used to state the properties *)

(** The characters of a string with the ASCII letters in lower case. *)
Definition fold_case (s : string) : list ascii :=
  lower <$> list_ascii_of_string s.

(** [needle] occurs in [hay] as a substring, letter case apart. *)
Definition occurs_in (needle hay : string) : Prop :=
  ∃ pre post : list ascii,
    fold_case hay = (pre ++ fold_case needle ++ post)%list.

(** A search text without any metacharacter of the pattern language. *)
Definition literal (s : string) : Prop :=
  forallb (λ c, negb (is_meta c)) (list_ascii_of_string s) = true.

(** The filter every listing starts from. *)
Definition base_query (uid : ObjectId) : gmap string clause :=
  {[ "user" := Cond (CEq (VOid uid)); "archived" := Cond (CEq (VBool false)) ]}.

(** The conditional assignments of [findByUser] in two steps, on any
    starting filter: the four filters, then the search. *)
Definition filtered (options : gmap string value) (q : gmap string clause)
  : gmap string clause :=
  let q := if js_truthy (get options "status")
           then <["status" := Cond (CEq (get options "status"))]> q else q in
  let q := if js_truthy (get options "priority")
           then <["priority" := Cond (CEq (get options "priority"))]> q else q in
  let q := if js_truthy (get options "category")
           then <["category" := Cond (CEq (get options "category"))]> q else q in
  let q := if bool_decide (get options "starred" ≠ VUndefined)
           then <["starred" := Cond (CEq (get options "starred"))]> q else q in
  q.

Definition searched (options : gmap string value) (q : gmap string clause)
  : gmap string clause :=
  if js_truthy (get options "search")
  then <["$or" := search_clause (get options "search")]> q else q.

Ltac split_ifs :=
  repeat match goal with
         | |- context [if ?b then _ else _] => destruct b
         end.

(** A query parameter that asks for no filtering. *)
Definition absent_or_all (o : option string) : Prop := o = None ∨ o = Some "all".

Section Overdue.

Variable dateToString : Z → string.
Variable dateFromString : string → option Z.

(** The due instant of a todo in the words of the specification: the date
    of [dueDate] with [dueTime] appended when both are there and the text
    parses, [dueDate] alone otherwise, and none without a [dueDate]. *)
Definition spec_due_datetime (t : Todo) : option Z :=
  match dueDate t with
  | None => None
  | Some d =>
      match dueTime t with
      | None => Some d
      | Some tm =>
          Some (default d
                  (dateFromString (dateToString d ++ "T" ++ tm ++ ":00.000Z")))
      end
  end.

(** Overdue in the words of the specification. *)
Definition spec_is_overdue (now : Z) (t : Todo) : bool :=
  negb (status t =? "completed") &&
  match spec_due_datetime t with
  | Some due => (due <? now)%Z
  | None => false
  end.

Definition spec_overdue_count (uid : ObjectId) (now : Z) (coll : list Todo) : Z :=
  Z.of_nat (length (List.filter (λ t, stats_match uid t && spec_is_overdue now t) coll)).

(** What the pipeline counts as overdue. *)
Definition counted_overdue (now : Z) (t : Todo) : bool :=
  negb (status t =? "completed") &&
  match spec_due_datetime t with
  | Some due => (due <? now)%Z
  | None => true
  end.

End Overdue.

(** Every todo with the identifier [i] is archived. *)
Definition hidden (i : ObjectId) (coll : list Todo) : Prop :=
  ∀ t, In t coll → _id t = i → archived t = true.


(** ** Sample data *)

(** A todo as [POST /] creates it from a title and a status alone. *)
Definition sample (id owner : ObjectId) (ttl st : string) : Todo :=
  {| _id := id; title := ttl; description := None; priority := "medium";
     status := st; category := None; tags := []; dueDate := None;
     dueTime := None; completedAt := None; starred := false; archived := false;
     order := 0%Z; user := owner; subtasks := []; comments := [];
     createdAt := 0%Z; updatedAt := 0%Z |}.

Definition no_filters : ListQuery :=
  {| q_status := Some "all"; q_priority := None; q_category := Some "all";
     q_starred := None; q_search := None; q_page := Some 2%Z; q_limit := None |}.

Definition search_milk : gmap string value := {[ "search" := VStr "milk" ]}.

Definition buy_milk : Todo := sample 1 7 "Buy MILK" "pending".

Definition search_dot : ListQuery :=
  {| q_status := None; q_priority := None; q_category := None;
     q_starred := None; q_search := Some "."; q_page := None; q_limit := None |}.

Definition todo_abc : Todo := sample 1 7 "abc" "pending".

Definition two_todos : list Todo :=
  [sample 1 7 "Write report" "pending"; sample 2 7 "Pay rent" "completed"].

Definition completed_only : ListQuery :=
  {| q_status := Some "completed"; q_priority := None; q_category := None;
     q_starred := None; q_search := None; q_page := None; q_limit := Some 1%Z |}.

Definition undated : list Todo := [sample 1 7 "Call the bank" "pending"].

Definition one_pending : list Todo := [sample 1 7 "Write report" "pending"].

(** The body [{ "status": "completed" }]. *)
Definition complete_it : TodoBody :=
  {| b_title := None; b_description := None; b_priority := None;
     b_status := Some "completed"; b_category := None; b_dueDate := None;
     b_dueTime := None; b_completedAt := None; b_starred := None;
     b_archived := None; b_order := None; b_user := None |}.

Definition complete_in_bulk : BulkBody :=
  {| action := "update-status"; todoIds := [1%N]; bulk_status := Some "completed" |}.

(** What the three ways of completing a todo leave in [status] and
    [completedAt]. *)
Definition completion (coll : list Todo) : list (string * option Z) :=
  map (λ t, (status t, completedAt t)) coll.

Definition with_subtask : list Todo :=
  [set_subtasks
     [{| st_id := 10%N; st_title := "Draft"; st_completed := false;
         st_createdAt := 0%Z |}]
     (sample 1 7 "Write report" "pending")].

Definition others_todo : list Todo := [sample 1 8 "Water plants" "pending"].

Definition archive_1 : BulkBody :=
  {| action := "archive"; todoIds := [1%N]; bulk_status := None |}.

Definition delete_1 : BulkBody :=
  {| action := "delete"; todoIds := [1%N]; bulk_status := None |}.


Definition everything : ListQuery :=
  {| q_status := None; q_priority := None; q_category := None;
     q_starred := None; q_search := None; q_page := None; q_limit := None |}.



(** ** Further notions *)

(** The listing order: [order] ascending, then [createdAt] descending. *)
Definition listed_before (a b : Todo) : Prop := sorts_before a b = true.

(** The same request for another page. *)
Definition at_page (p : Z) (rq : ListQuery) : ListQuery :=
  {| q_status := q_status rq; q_priority := q_priority rq;
     q_category := q_category rq; q_starred := q_starred rq;
     q_search := q_search rq; q_page := Some p; q_limit := q_limit rq |}.

(** The todos [l] are told apart by the keys of the listing order: two of
    them with the same [order] and the same [createdAt] are the same todo.
    The sort of a listing then has one possible outcome. *)
Definition distinct_keys (l : list Todo) : Prop :=
  ∀ a b, In a l → In b l → order a = order b → createdAt a = createdAt b → a = b.

(** Text of ASCII characters only: its bytes are its characters, so that the
    length the validators take of it is its number of bytes. *)
Definition ascii_text (s : string) : bool :=
  forallb (λ c, (nat_of_ascii c <? 128)%nat) (list_ascii_of_string s).

(** The same request with another search parameter. *)
Definition with_search (s : option string) (rq : ListQuery) : ListQuery :=
  {| q_status := q_status rq; q_priority := q_priority rq;
     q_category := q_category rq; q_starred := q_starred rq;
     q_search := s; q_page := q_page rq; q_limit := q_limit rq |}.

(** The number of the user's unarchived todos that satisfy [p]. *)
Definition count_where (uid : ObjectId) (p : Todo → bool) (coll : list Todo) : Z :=
  Z.of_nat (length (List.filter (λ t, stats_match uid t && p t) coll)).

(** The values the schema allows for [status]. *)
Definition statuses : list string := ["pending"; "in-progress"; "completed"].

(** No two stored todos share an identifier. *)
Definition unique_ids (coll : list Todo) : Prop := NoDup (map _id coll).

(** A todo that a bulk request of [uid] with the identifiers [ids] reaches. *)
Definition reached (ids : list ObjectId) (uid : ObjectId) (t : Todo) : bool :=
  existsb (N.eqb (_id t)) ids && (user t =? uid)%N.

(** ** More sample data *)

Definition page_five : ListData :=
  {| todos := []; pagination := {| current := 5; pages := 1; total := 2 |} |}.

(** A formatter and a parser of dates that know no date. *)
Definition no_format : Z → string := λ _, "".

Definition no_parse : string → option Z := λ _, None.

Definition stats_of_two : Stats :=
  {| stats_total := 2; stats_completed := 1; stats_pending := 1;
     stats_inProgress := 0; stats_highPriority := 0; stats_overdue := 1 |}.

(** The body [{ "title": " Plan trip " }]. *)
Definition plan_trip : TodoBody :=
  {| b_title := Some " Plan trip "; b_description := None; b_priority := None;
     b_status := None; b_category := None; b_dueDate := None;
     b_dueTime := None; b_completedAt := None; b_starred := None;
     b_archived := None; b_order := None; b_user := None |}.

(** The body [{ "category": "work" }], [one_pending] after its todo was
    filed with it, the request [GET /?category=%20work%20] and the page that
    answers it. *)
Definition file_under_work : TodoBody :=
  {| b_title := None; b_description := None; b_priority := None;
     b_status := None; b_category := Some "work"; b_dueDate := None;
     b_dueTime := None; b_completedAt := None; b_starred := None;
     b_archived := None; b_order := None; b_user := None |}.

Definition filed : list Todo := serve 7 1 (PutTodo 1 file_under_work) one_pending.

Definition in_work : ListQuery :=
  {| q_status := None; q_priority := None; q_category := Some " work ";
     q_starred := None; q_search := None; q_page := None; q_limit := None |}.

Definition page_filed : ListData :=
  {| todos := filed;
     pagination := {| current := 1; pages := 1; total := 1 |} |}.

(** [one_pending] after user 7 created a second todo at instant 5, and the
    one page that lists both, the newer first. *)
Definition after_create : list Todo := serve 7 5 (PostTodo 5 plan_trip) one_pending.

Definition page_after_create : ListData :=
  {| todos := sort_todos after_create;
     pagination := {| current := 1; pages := 1; total := 2 |} |}.

(** The body [{ "title": "Plan trip", "status": "done" }]. *)
Definition plan_trip_done : TodoBody :=
  {| b_title := Some "Plan trip"; b_description := None; b_priority := None;
     b_status := Some "done"; b_category := None; b_dueDate := None;
     b_dueTime := None; b_completedAt := None; b_starred := None;
     b_archived := None; b_order := None; b_user := None |}.

(** The body [{ "user": 8 }]. *)
Definition hand_over : TodoBody :=
  {| b_title := None; b_description := None; b_priority := None;
     b_status := None; b_category := None; b_dueDate := None;
     b_dueTime := None; b_completedAt := None; b_starred := None;
     b_archived := None; b_order := None; b_user := Some 8%N |}.

Definition draft : Subtask :=
  {| st_id := 10%N; st_title := "Draft"; st_completed := false;
     st_createdAt := 0%Z |}.

(** The body [{ "title": " Review " }]. *)
Definition review : SubtaskBody :=
  {| sb_id := None; sb_title := Some " Review "; sb_completed := None;
     sb_createdAt := None |}.

(** The body [{ "title": "Review", "_id": 12, "createdAt": 1 }]. *)
Definition backdated_review : SubtaskBody :=
  {| sb_id := Some 12%N; sb_title := Some "Review"; sb_completed := None;
     sb_createdAt := Some 1%Z |}.

(** The body [{ "text": " Looks good ", "createdAt": 1 }]. *)
Definition looks_good : CommentBody :=
  {| cb_text := Some " Looks good "; cb_createdAt := Some 1%Z |}.

(** The body [{ "text": "   " }]. *)
Definition blank_comment : CommentBody :=
  {| cb_text := Some "   "; cb_createdAt := None |}.

(** Closed goals over sample data are settled by evaluation. *)
Ltac by_evaluation := vm_compute; reflexivity.

Ltac unique_by_evaluation :=
  unfold unique_ids; apply (bool_decide_unpack _); vm_compute; exact I.


(** * Properties *)

(** ** Lists *)

Lemma filter_filter_andb {A} (p q : A → bool) (l : list A) :
  List.filter q (List.filter p l) = List.filter (λ x, p x && q x) l.
Proof.
  induction l as [|x l IH]; simpl; [done|].
  destruct (p x); simpl; [destruct (q x)|]; by rewrite IH.
Qed.

(** ** Filters *)

Lemma and_opt_comm_assoc (a b c : option bool) :
  and_opt a (and_opt b c) = and_opt b (and_opt a c).
Proof. destruct a as [[]|], b as [[]|], c as [[]|]; reflexivity. Qed.

Lemma and_opt_true (a b : option bool) :
  and_opt a b = Some true ↔ a = Some true ∧ b = Some true.
Proof. destruct a as [[]|], b as [[]|]; simpl; intuition congruence. Qed.

Lemma matches_empty (t : Todo) : matches ∅ t = Some true.
Proof. unfold matches. apply map_fold_empty. Qed.

Lemma matches_insert (q : gmap string clause) (path : string) (c : clause) (t : Todo) :
  q !! path = None →
  matches (<[path:=c]> q) t
  = and_opt (clause_holds t path (cast path c)) (matches q t).
Proof.
  intros Hfresh. unfold matches.
  apply (map_fold_insert_L
           (λ path c acc, and_opt (clause_holds t path (cast path c)) acc));
    [|exact Hfresh].
  intros; apply and_opt_comm_assoc.
Qed.

Lemma matches_singleton (path : string) (c : clause) (t : Todo) :
  matches {[ path := c ]} t = and_opt (clause_holds t path (cast path c)) (Some true).
Proof.
  rewrite <- insert_empty, matches_insert by apply lookup_empty.
  by rewrite matches_empty.
Qed.

Lemma query_eq_oid (a b : ObjectId) : query_eq (VOid a) (VOid b) = (b =? a)%N.
Proof.
  simpl. destruct (N.eqb_spec b a) as [->|Hne].
  - by rewrite bool_decide_eq_true_2.
  - rewrite bool_decide_eq_false_2; [done|]. intros [=]. contradiction.
Qed.

Lemma query_eq_bool (a b : bool) : query_eq (VBool a) (VBool b) = Bool.eqb b a.
Proof.
  by destruct a, b.
Qed.

Lemma matches_base_query (uid : ObjectId) (t : Todo) :
  matches (base_query uid) t = Some ((user t =? uid)%N && negb (archived t)).
Proof.
  unfold base_query.
  rewrite matches_insert by done.
  rewrite matches_singleton. cbn -[query_eq].
  rewrite query_eq_oid, query_eq_bool.
  by destruct (user t =? uid)%N, (archived t).
Qed.

Lemma matches_insert_true (q : gmap string clause) (path : string) (c : clause) (t : Todo) :
  q !! path = None →
  matches (<[path:=c]> q) t = Some true →
  clause_holds t path (cast path c) = Some true ∧ matches q t = Some true.
Proof. intros Hfresh. rewrite matches_insert by done. apply and_opt_true. Qed.

Lemma findByUser_query_steps (uid : ObjectId) (options : gmap string value) :
  findByUser_query uid options =
  searched options (filtered options (base_query uid)).
Proof. reflexivity. Qed.

Lemma filtered_lookup (options : gmap string value) (q : gmap string clause) (k : string) :
  "status" ≠ k → "priority" ≠ k → "category" ≠ k → "starred" ≠ k →
  filtered options q !! k = q !! k.
Proof.
  intros. unfold filtered.
  split_ifs; rewrite ?lookup_insert_ne by assumption; reflexivity.
Qed.

Lemma searched_lookup (options : gmap string value) (q : gmap string clause) (k : string) :
  "$or" ≠ k → searched options q !! k = q !! k.
Proof.
  intros. unfold searched.
  split_ifs; rewrite ?lookup_insert_ne by assumption; reflexivity.
Qed.

Lemma filtered_matches (options : gmap string value) (q : gmap string clause) (t : Todo) :
  q !! "status" = None → q !! "priority" = None → q !! "category" = None →
  q !! "starred" = None →
  matches (filtered options q) t = Some true → matches q t = Some true.
Proof.
  intros H1 H2 H3 H4. unfold filtered.
  split_ifs; intros Hm;
    repeat match type of Hm with
           | matches (<[_:=_]> _) _ = Some true =>
               apply matches_insert_true in Hm as [_ Hm];
               [| rewrite ?lookup_insert_ne by discriminate; assumption]
           end; exact Hm.
Qed.

Lemma searched_matches (options : gmap string value) (q : gmap string clause) (t : Todo) :
  q !! "$or" = None →
  matches (searched options q) t = Some true → matches q t = Some true.
Proof.
  intros H. unfold searched. split_ifs; [|done].
  intros Hm. by apply matches_insert_true in Hm as [_ Hm].
Qed.

Lemma list_options_no_filter (rq : ListQuery) :
  absent_or_all (q_status rq) → absent_or_all (q_priority rq) →
  absent_or_all (q_category rq) → absent_or_all (q_starred rq) →
  q_search rq = None →
  list_options rq = ∅.
Proof.
  unfold list_options.
  intros [-> | ->] [-> | ->] [-> | ->] [-> | ->] ->; reflexivity.
Qed.

(** A document that the filter of [findByUser] selects belongs to the user
    and is not archived. *)
Lemma findByUser_query_selects (uid : ObjectId) (options : gmap string value) (t : Todo) :
  matches (findByUser_query uid options) t = Some true →
  user t = uid ∧ archived t = false.
Proof.
  intros Hm. rewrite findByUser_query_steps in Hm.
  apply searched_matches in Hm;
    [| rewrite filtered_lookup; [reflexivity | discriminate ..]].
  apply filtered_matches in Hm; try reflexivity.
  rewrite matches_base_query in Hm.
  injection Hm as Hm. apply andb_true_iff in Hm as [Hu Ha].
  split; [by apply N.eqb_eq | by destruct (archived t)].
Qed.

(** C6. Whatever the options, the filter that the query builder emits pins
    [user] to the given identifier and [archived] to [false], and a document
    it selects has both; and when status, priority, category and starred are
    each absent or ["all"] and no search is given, the emitted filter is
    exactly [{ user, archived: false }]. *)
Theorem findByUser_query_base (uid : ObjectId) (options : gmap string value)
    (rq : ListQuery) :
  (findByUser_query uid options !! "user" = Some (Cond (CEq (VOid uid))) ∧
   findByUser_query uid options !! "archived" = Some (Cond (CEq (VBool false))) ∧
   ∀ t, matches (findByUser_query uid options) t = Some true →
        user t = uid ∧ archived t = false) ∧
  (absent_or_all (q_status rq) → absent_or_all (q_priority rq) →
   absent_or_all (q_category rq) → absent_or_all (q_starred rq) →
   q_search rq = None →
   findByUser_query uid (list_options rq) =
     {[ "user" := Cond (CEq (VOid uid));
        "archived" := Cond (CEq (VBool false)) ]}).
Proof.
  split; [split; [|split]|].
  - rewrite findByUser_query_steps, searched_lookup by discriminate.
    rewrite filtered_lookup; [reflexivity | discriminate ..].
  - rewrite findByUser_query_steps, searched_lookup by discriminate.
    rewrite filtered_lookup; [reflexivity | discriminate ..].
  - apply findByUser_query_selects.
  - intros Hs Hp Hc Hst Hq.
    rewrite list_options_no_filter by assumption. reflexivity.
Qed.

Lemma findByUser_query_base_witness :
  findByUser_query 7%N (list_options no_filters) =
    {[ "user" := Cond (CEq (VOid 7%N)); "archived" := Cond (CEq (VBool false)) ]}.
Proof.
  apply (findByUser_query_base 7%N ∅ no_filters);
    first [by right | by left | reflexivity].
Defined.

(** ** Search *)

Lemma compile_literal (s : string) :
  literal s → compile s = Some (Lit <$> list_ascii_of_string s).
Proof.
  unfold literal. induction s as [|c r IH]; simpl; [done|].
  intros [Hc Hr]%andb_true_iff.
  destruct (Ascii.eqb_spec c ".") as [->|_]; [discriminate Hc|].
  apply negb_true_iff in Hc. rewrite Hc, (IH Hr). reflexivity.
Qed.

Lemma fold_case_cons (c : ascii) (r : string) :
  fold_case (String c r) = lower c :: fold_case r.
Proof. reflexivity. Qed.

Lemma match_here_cons (a : atom) (rest : list atom) (c : ascii) (r : string) :
  match_here true (a :: rest) (String c r) =
  atom_accepts true a c && match_here true rest r.
Proof. reflexivity. Qed.

Lemma match_from_cons (atoms : list atom) (c : ascii) (r : string) :
  match_from true atoms (String c r) =
  match_here true atoms (String c r) || match_from true atoms r.
Proof. reflexivity. Qed.

Lemma match_here_literal (l : list ascii) (s : string) :
  match_here true (Lit <$> l) s = true ↔
  ∃ post, fold_case s = ((lower <$> l) ++ post)%list.
Proof.
  revert s. induction l as [|a l IH]; intros s.
  - split; [eauto | done].
  - rewrite !fmap_cons. destruct s as [|c r].
    + split; [done | intros [post [=]]].
    + rewrite match_here_cons, fold_case_cons, andb_true_iff, IH. split.
      * intros [Hc%Ascii.eqb_eq [post Hr]]. exists post.
        rewrite Hr, <- Hc. reflexivity.
      * intros [post [= Hc Hr]]. split; [by apply Ascii.eqb_eq | eauto].
Qed.

Lemma match_from_literal (l : list ascii) (s : string) :
  match_from true (Lit <$> l) s = true ↔
  ∃ pre post, fold_case s = (pre ++ (lower <$> l) ++ post)%list.
Proof.
  induction s as [|c r IH].
  - change (match_from true (Lit <$> l) "")
      with (match_here true (Lit <$> l) "" || false).
    rewrite orb_false_r, match_here_literal. split.
    + intros [post H]. by exists [], post.
    + intros (pre & post & H). change (fold_case "") with (@nil ascii) in H.
      symmetry in H. apply app_eq_nil in H as [-> H]. eauto.
  - rewrite match_from_cons, orb_true_iff, match_here_literal, IH, fold_case_cons.
    split.
    + intros [[post H] | (pre & post & H)].
      * by exists [], post.
      * exists (lower c :: pre), post. rewrite H. reflexivity.
    + intros (pre & post & H). destruct pre as [|x pre].
      * left. eauto.
      * right. injection H as _ H. eauto.
Qed.

(** On a literal pattern, the caseless [$regex] test is the substring test. *)
Lemma regex_test_literal (s subject : string) :
  literal s →
  ∃ b, regex_test (VStr s) "i" subject = Some b ∧ (b = true ↔ occurs_in s subject).
Proof.
  intros Hs. unfold regex_test; simpl. rewrite (compile_literal s Hs); simpl.
  eexists; split; [reflexivity|]. apply match_from_literal.
Qed.

Lemma or_opt_true (a b : option bool) :
  or_opt a b = Some true →
  a = Some true ∨ b = Some true.
Proof. destruct a as [[]|], b as [[]|]; simpl; intuition congruence. Qed.

(** What the [$or] clause of a search asks of a document. *)
Lemma search_clause_literal (s : string) (t : Todo) :
  literal s →
  clause_holds t "$or" (search_clause (VStr s)) = Some true ↔
  occurs_in s (title t) ∨ ∃ d, description t = Some d ∧ occurs_in s d.
Proof.
  intros Hs. cbn -[regex_test].
  destruct (regex_test_literal s (title t) Hs) as (b1 & -> & H1).
  destruct (regex_test_literal s "" Hs) as (b0 & -> & _).
  destruct (description t) as [d|]; cbn -[regex_test].
  - destruct (regex_test_literal s d Hs) as (b2 & -> & H2).
    simpl. rewrite orb_false_r. split.
    + intros [= Hb]. apply orb_true_iff in Hb as [-> | ->].
      * left. by apply H1.
      * right. exists d. split; [done | by apply H2].
    + intros [H | (d' & [= <-] & H)]; f_equal; apply orb_true_iff.
      * left. by apply H1.
      * right. by apply H2.
  - simpl. rewrite orb_false_r. split.
    + intros [= ->]. left. by apply H1.
    + intros [H | (d' & [=] & _)]. f_equal. by apply H1.
Qed.

Lemma get_delete_ne (options : gmap string value) (k k' : string) :
  k ≠ k' → get (delete k options) k' = get options k'.
Proof. intros. unfold get. by rewrite lookup_delete_ne. Qed.

Lemma filtered_delete_search (options : gmap string value) (q : gmap string clause) :
  filtered (delete "search" options) q = filtered options q.
Proof. unfold filtered. by rewrite !get_delete_ne. Qed.

Lemma searched_delete_search (options : gmap string value) (q : gmap string clause) :
  searched (delete "search" options) q = q.
Proof. unfold searched, get. by rewrite lookup_delete_eq. Qed.

Lemma occurs_in_empty (hay : string) : occurs_in "" hay.
Proof. exists [], (fold_case hay). reflexivity. Qed.

(** C7, as the code has it. The search text is handed to the database as a
    pattern. When it has no metacharacter, a document passes the listing
    filter exactly when it passes the same filter without the search and the
    text occurs, letter case apart, in its title or in its description. *)
Theorem search_literal_is_substring (uid : ObjectId)
    (options : gmap string value) (s : string) (t : Todo) :
  get options "search" = VStr s →
  literal s →
  matches (findByUser_query uid options) t = Some true ↔
  matches (findByUser_query uid (delete "search" options)) t = Some true ∧
  (occurs_in s (title t) ∨ ∃ d, description t = Some d ∧ occurs_in s d).
Proof.
  intros Hget Hs.
  rewrite !findByUser_query_steps, searched_delete_search, filtered_delete_search.
  unfold searched. rewrite Hget.
  destruct (String.eqb_spec s "") as [-> | Hne].
  - simpl. split; [|tauto]. intros Hm. split; [done|]. left. apply occurs_in_empty.
  - replace (js_truthy (VStr s)) with true
      by (simpl; apply String.eqb_neq in Hne; by rewrite Hne).
    rewrite matches_insert
      by (rewrite filtered_lookup; [reflexivity | discriminate ..]).
    change (cast "$or" (search_clause (VStr s))) with (search_clause (VStr s)).
    rewrite and_opt_true, search_clause_literal by done. tauto.
Qed.

Lemma search_literal_is_substring_witness :
  matches (findByUser_query 7%N search_milk) buy_milk = Some true ↔
  matches (findByUser_query 7%N (delete "search" search_milk)) buy_milk = Some true ∧
  (occurs_in "milk" (title buy_milk) ∨
   ∃ d, description buy_milk = Some d ∧ occurs_in "milk" d).
Proof.
  apply (search_literal_is_substring 7%N search_milk "milk" buy_milk);
    reflexivity.
Defined.

(** The search text [.] selects a todo titled [abc], in which no dot occurs. *)
Lemma search_dot_not_substring :
  matches (findByUser_query 7%N (list_options search_dot)) todo_abc = Some true ∧
  (todos <$> (get_todos 7%N search_dot [todo_abc] ≫= data)) = Some [todo_abc] ∧
  ¬ (occurs_in "." (title todo_abc) ∨
     ∃ d, description todo_abc = Some d ∧ occurs_in "." d).
Proof.
  split; [vm_compute; reflexivity|]. split; [vm_compute; reflexivity|].
  intros [(pre & post & H) | (d & [=] & _)].
  assert (In "."%char (fold_case (title todo_abc))) as Hin.
  { rewrite H. apply in_or_app. right. left. reflexivity. }
  vm_compute in Hin. intuition discriminate.
Qed.

(** ** Pagination *)

Lemma ceil_div_bounds (a b : Z) :
  (0 < b)%Z →
  ((ceil_div a b - 1) * b < a ≤ ceil_div a b * b)%Z.
Proof.
  intros Hb. unfold ceil_div.
  pose proof (Z.div_mod a b ltac:(lia)) as Hdm.
  pose proof (Z.mod_pos_bound a b Hb) as Hm.
  destruct (Z.eqb_spec (a mod b) 0); nia.
Qed.

(** What the envelope of a listing holds: the count of the documents that
    pass the filter of the [countDocuments] call, and its quotient by the
    page size, rounded up. *)
Lemma get_todos_pagination (uid : ObjectId) (rq : ListQuery) (coll : list Todo)
    (r : Response ListData) (d : ListData) :
  valid_list_query rq = true →
  get_todos uid rq coll = Some r → data r = Some d →
  countDocuments (count_query uid (opt_value VStr (trim <$> q_search rq))) coll
    = Some (Z.to_nat (total (pagination d))) ∧
  pages (pagination d) = ceil_div (total (pagination d)) (default 20%Z (q_limit rq)).
Proof.
  intros Hv Hr Hd. unfold get_todos in Hr. rewrite Hv in Hr. simpl in Hr.
  destruct (findByUser uid (list_options rq) coll) as [found|]; [|done].
  simpl in Hr.
  destruct (countDocuments _ coll) as [n|]; [|done].
  simpl in Hr. injection Hr as <-. simpl in Hd. injection Hd as <-. simpl.
  by rewrite Nat2Z.id.
Qed.

(** Without a status, priority, category or starred filter, the count is
    taken with the filter of the page. *)
Lemma count_query_no_filter (uid : ObjectId) (rq : ListQuery) :
  absent_or_all (q_status rq) → absent_or_all (q_priority rq) →
  absent_or_all (q_category rq) → absent_or_all (q_starred rq) →
  count_query uid (opt_value VStr (trim <$> q_search rq))
  = findByUser_query uid (list_options rq).
Proof.
  unfold list_options, count_query.
  intros [-> | ->] [-> | ->] [-> | ->] [-> | ->];
    destruct (q_search rq) as [s|]; simpl; try reflexivity.
  all: unfold findByUser_query, get;
    rewrite map_filter_singleton_True by done;
    rewrite lookup_singleton_eq; simpl;
    rewrite ?lookup_singleton_ne by done; simpl;
    reflexivity.
Qed.

(** C1. With two todos of one user, one of them completed, the listing for
    [status=completed] and [limit=1] returns the completed todo alone but
    reports a total of 2 and 2 pages, while 1 document passes the filter of
    the page. *)
Theorem total_ignores_filters :
  get_todos 7 completed_only two_todos ≫= data =
    Some {| todos := [sample 2 7 "Pay rent" "completed"];
            pagination := {| current := 1; pages := 2; total := 2 |} |} ∧
  countDocuments (findByUser_query 7 (list_options completed_only)) two_todos
    = Some 1%nat.
Proof. split; vm_compute; reflexivity. Qed.

(** ** Statistics *)

Lemma string_compare_refl (a : string) : String.compare a a = Eq.
Proof.
  pose proof (String.compare_antisym a a) as H.
  destruct (String.compare a a); simpl in H; congruence.
Qed.

Lemma string_compare_ne (a b : string) :
  match String.compare a b with Eq => false | _ => true end = negb (a =? b).
Proof.
  destruct (String.eqb_spec a b) as [->|Hne]; simpl.
  - by rewrite string_compare_refl.
  - destruct (String.compare a b) eqn:Hc; try reflexivity.
    by apply String.compare_eq_iff in Hc.
Qed.

Section OverdueFacts.

Variable dateToString : Z → string.
Variable dateFromString : string → option Z.

Local Abbreviation cdt := (combinedDueDateTime dateToString dateFromString).
Local Abbreviation due := (spec_due_datetime dateToString dateFromString).

(** The field that [$addFields] computes is the due instant where the
    todo has a [dueDate], and is missing where it has none. *)
Lemma combinedDueDateTime_due (t : Todo) :
  cdt t = opt_value VDate (due t).
Proof.
  unfold combinedDueDateTime, spec_due_datetime.
  change (field t "dueDate") with (opt_value VDate (dueDate t)).
  change (field t "dueTime") with (opt_value VStr (dueTime t)).
  destruct (dueDate t) as [d|], (dueTime t) as [tm|]; simpl; try reflexivity.
  by destruct (dateFromString _).
Qed.

Lemma overdue_cond_counted (now : Z) (t : Todo) :
  agg_truthy (overdue_cond dateToString dateFromString now t)
  = counted_overdue dateToString dateFromString now t.
Proof.
  unfold overdue_cond, counted_overdue. rewrite combinedDueDateTime_due.
  change (field t "status") with (VStr (status t)).
  unfold op_and, op_ne at 1, bson_compare. rewrite string_compare_ne.
  destruct (due t) as [z|]; simpl.
  - rewrite andb_true_r. unfold Z.ltb. by destruct (z ?= now)%Z.
  - by rewrite !andb_true_r.
Qed.

Lemma fold_group_overdue (now : Z) (docs : list Todo) (acc : Stats) :
  stats_overdue (fold_left (group_step dateToString dateFromString now) docs acc)
  = (stats_overdue acc +
     Z.of_nat (length (List.filter
                         (counted_overdue dateToString dateFromString now) docs)))%Z.
Proof.
  revert acc. induction docs as [|t docs IH]; intros acc; simpl.
  - lia.
  - rewrite IH. simpl. unfold one_if. rewrite overdue_cond_counted.
    destruct (counted_overdue _ _ now t); simpl length; lia.
Qed.

(** The overdue count that [GET /stats/overview] reports: the user's
    unarchived todos that are not completed and either have no due date
    or are past their due instant. *)
Lemma get_stats_overdue (uid : ObjectId) (now : Z) (coll : list Todo) :
  (stats_overdue <$> data (get_stats dateToString dateFromString uid now coll))
  = Some (Z.of_nat (length (List.filter
       (λ t, stats_match uid t && counted_overdue dateToString dateFromString now t)
       coll))).
Proof.
  unfold get_stats, getStats, ok. cbn [data fmap option_fmap option_map].
  f_equal. rewrite <- filter_filter_andb.
  destruct (List.filter (stats_match uid) coll) as [|t docs]; [reflexivity|].
  cbn [head default from_option id]. rewrite fold_group_overdue. reflexivity.
Qed.

(** When every todo that enters the count has a due date, the pipeline
    counts what the specification calls overdue. *)
Lemma get_stats_overdue_dated (uid : ObjectId) (now : Z) (coll : list Todo) :
  (∀ t, In t coll → stats_match uid t = true → dueDate t ≠ None) →
  (stats_overdue <$> data (get_stats dateToString dateFromString uid now coll))
  = Some (spec_overdue_count dateToString dateFromString uid now coll).
Proof.
  intros Hdated. rewrite get_stats_overdue. unfold spec_overdue_count.
  do 3 f_equal. apply filter_ext_in. intros t Hin.
  destruct (stats_match uid t) eqn:Hm; [|done]. simpl.
  unfold counted_overdue, spec_is_overdue, spec_due_datetime.
  specialize (Hdated t Hin Hm).
  destruct (dueDate t); [|done]. by destruct (dueTime t).
Qed.

(** C2. A pending todo without a due date is counted as overdue: the
    pipeline reports 1 where the specification counts 0. The field computed
    for it is missing, a missing field differs from [null] under [$ne], and
    it sorts before every date under [$lt]. *)
Theorem overdue_counts_undated (now : Z) :
  (stats_overdue <$> data (get_stats dateToString dateFromString 7 now undated))
    = Some 1%Z ∧
  spec_overdue_count dateToString dateFromString 7 now undated = 0%Z ∧
  combinedDueDateTime dateToString dateFromString (sample 1 7 "Call the bank" "pending")
    = VUndefined ∧
  op_ne VUndefined VNull = VBool true ∧
  op_lt VUndefined (VDate now) = VBool true.
Proof. repeat split; reflexivity. Qed.

End OverdueFacts.

(** ** Ownership filters *)

Lemma bool_decide_Some_true (b : bool) : bool_decide (Some b = Some true) = b.
Proof. destruct b; [by rewrite bool_decide_eq_true_2 | by rewrite bool_decide_eq_false_2]. Qed.

Lemma selects_own_todo (id uid : ObjectId) (t : Todo) :
  selects (own_todo id uid) t = (_id t =? id)%N && (user t =? uid)%N.
Proof.
  unfold selects, own_todo.
  rewrite matches_insert by done. rewrite matches_singleton.
  cbn -[query_eq]. rewrite !query_eq_oid, andb_true_r.
  apply bool_decide_Some_true.
Qed.

Lemma existsb_query_eq_oid (ids : list ObjectId) (x : ObjectId) :
  existsb (λ v, query_eq v (VOid x)) (VOid <$> ids) = existsb (N.eqb x) ids.
Proof.
  induction ids as [|i ids IH]; [done|].
  rewrite fmap_cons. cbn [existsb]. by rewrite IH, query_eq_oid.
Qed.

Lemma cast_value_oids (path : string) (ids : list ObjectId) :
  cast_value path <$> (VOid <$> ids) = VOid <$> ids.
Proof.
  induction ids as [|i ids IH]; [done|].
  rewrite !fmap_cons, IH. reflexivity.
Qed.

Lemma selects_own_todos (ids : list ObjectId) (uid : ObjectId) (t : Todo) :
  selects (own_todos ids uid) t = existsb (N.eqb (_id t)) ids && (user t =? uid)%N.
Proof.
  unfold selects, own_todos.
  rewrite matches_insert by done. rewrite matches_singleton.
  cbn -[query_eq existsb fmap].
  rewrite cast_value_oids, existsb_query_eq_oid, query_eq_oid, andb_true_r.
  apply bool_decide_Some_true.
Qed.

Lemma findOne_own_todo (id uid : ObjectId) (coll : list Todo) (t : Todo) :
  findOne (own_todo id uid) coll = Some t →
  In t coll ∧ _id t = id ∧ user t = uid.
Proof.
  intros H. apply find_some in H as [Hin Hsel].
  rewrite selects_own_todo in Hsel.
  apply andb_true_iff in Hsel as [?%N.eqb_eq ?%N.eqb_eq]. done.
Qed.

(** ** Completion *)

(** The hook: a save that moves [status] to completed stamps [completedAt]
    when it is not set. *)
Lemma save_stamps_completedAt (orig doc : Todo) (now : Z) (coll : list Todo) :
  status orig ≠ "completed" → status doc = "completed" → completedAt doc = None →
  completedAt (save orig doc now coll).1 = Some now.
Proof.
  intros Ho Hd Hc. unfold save, pre_save. cbn [fst].
  rewrite Hd, Hc. apply String.eqb_neq in Ho.
  rewrite String.eqb_sym, Ho. reflexivity.
Qed.

Lemma pre_save_not_completed (orig doc : Todo) (now : Z) :
  status doc ≠ "completed" → pre_save orig doc now = doc.
Proof.
  intros H%String.eqb_neq. unfold pre_save.
  by rewrite H, andb_false_r.
Qed.

Lemma pre_save_stamped (orig doc : Todo) (now : Z) :
  completedAt doc ≠ None → pre_save orig doc now = doc.
Proof.
  intros H. unfold pre_save.
  by rewrite (bool_decide_eq_false_2 _ H), andb_false_r.
Qed.

(** An update goes through no hook: [completedAt] changes only when the
    update names it. *)
Lemma apply_update_completedAt (u : TodoBody) (now : Z) (t : Todo) :
  b_completedAt u = None →
  completedAt (apply_update u now t) = completedAt t.
Proof. intros H. unfold apply_update; simpl. by rewrite H. Qed.

(** C3. On a pending todo, [PUT /:id] with [{ "status": "completed" }] is
    accepted and stores [status = completed] with [completedAt] absent,
    whereas the toggle and the bulk status update store the instant of the
    request. *)
Theorem put_completed_leaves_completedAt_unset (now : Z) :
  valid_update_body complete_it = true ∧
  completion (put_todo 7 1 complete_it now one_pending).2 = [("completed", None)] ∧
  completion (patch_toggle 7 1 now one_pending).2 = [("completed", Some now)] ∧
  completion (post_bulk 7 complete_in_bulk now one_pending).2 = [("completed", Some now)].
Proof. repeat split; reflexivity. Qed.

(** ** Toggle *)

(** C8. [toggleStatus] turns a completed todo into a pending one without
    [completedAt], and any other todo into a completed one with
    [completedAt] at the instant of the call; the result is what is stored,
    and it is never in progress. *)
Theorem toggleStatus_flips (t : Todo) (now : Z) (coll : list Todo) :
  (status t = "completed" →
   status (toggleStatus t now coll).1 = "pending" ∧
   completedAt (toggleStatus t now coll).1 = None) ∧
  (status t ≠ "completed" →
   status (toggleStatus t now coll).1 = "completed" ∧
   completedAt (toggleStatus t now coll).1 = Some now) ∧
  status (toggleStatus t now coll).1 ≠ "in-progress" ∧
  (toggleStatus t now coll).2 = replace_doc (toggleStatus t now coll).1 coll.
Proof.
  unfold toggleStatus, save. cbn [fst snd].
  destruct (String.eqb_spec (status t) "completed") as [He|Hne].
  - rewrite pre_save_not_completed by discriminate.
    split; [intros _; split; reflexivity|].
    split; [intros Hne; contradiction|].
    split; [discriminate | reflexivity].
  - rewrite pre_save_stamped by discriminate.
    split; [intros He; contradiction|].
    split; [intros _; split; reflexivity|].
    split; [discriminate | reflexivity].
Qed.

Lemma toggleStatus_flips_witness :
  status (toggleStatus (sample 1 7 "Write report" "in-progress") 5 []).1 = "completed" ∧
  completedAt (toggleStatus (sample 1 7 "Write report" "in-progress") 5 []).1 = Some 5%Z.
Proof.
  apply (toggleStatus_flips (sample 1 7 "Write report" "in-progress") 5 []).
  discriminate.
Defined.

(** ** Subtasks *)

Lemma patch_subtask_unknown (uid id sid : ObjectId) (now : Z) (coll : list Todo) (t : Todo) :
  findOne (own_todo id uid) coll = Some t →
  subtask_by_id sid (subtasks t) = None →
  patch_subtask uid id sid now coll = (server_error "Subtask not found", coll).
Proof.
  intros Hf Hs. unfold patch_subtask, toggleSubtask. by rewrite Hf, Hs.
Qed.

(** C4. Toggling a subtask that the todo does not have leaves the collection
    as it was, and is answered with status 500 and the message
    ["Server error"]; a todo that is not found is answered with 404. *)
Theorem toggle_unknown_subtask_is_500 (now : Z) :
  patch_subtask 7 1 11 now with_subtask =
    (mkResponse 500 false (Some "Server error") (Some "Subtask not found") None,
     with_subtask) ∧
  patch_subtask 7 2 10 now with_subtask =
    (mkResponse 404 false (Some "Todo not found") None None, with_subtask).
Proof. split; reflexivity. Qed.

(** ** Bulk *)

Lemma js_or_count (n : nat) :
  js_or (VNum (Z.of_nat n)) VUndefined =
  match n with O => VUndefined | S _ => VNum (Z.of_nat n) end.
Proof. by destruct n. Qed.

(** The bulk delete removes the listed todos of the user and reports how
    many they were. *)
Lemma post_bulk_delete (uid : ObjectId) (ids : list ObjectId) (st : option string)
    (now : Z) (coll : list Todo) :
  valid_bulk_body {| action := "delete"; todoIds := ids; bulk_status := st |} = true →
  let owned t := existsb (N.eqb (_id t)) ids && (user t =? uid)%N in
  post_bulk uid {| action := "delete"; todoIds := ids; bulk_status := st |} now coll
  = (ok (Some "Bulk delete completed successfully")
        (Some {| reported_modifiedCount :=
                   VNum (Z.of_nat (length (List.filter owned coll))) |}),
     List.filter (λ t, negb (owned t)) coll).
Proof.
  intros Hv owned. unfold post_bulk. rewrite Hv. cbn.
  unfold bulk_done, js_or, count_of. cbn.
  rewrite (filter_ext (selects (own_todos ids uid)) owned)
    by (intros t; apply selects_own_todos).
  rewrite (filter_ext (λ t, negb (selects (own_todos ids uid) t))
                      (λ t, negb (owned t)))
    by (intros t; by rewrite selects_own_todos).
  reflexivity.
Qed.

(** The bulk archive and the bulk status update change the listed todos of
    the user and no other; the count they report is the number of changed
    documents unless that number is zero. *)
Lemma updateMany_own_todos (ids : list ObjectId) (uid : ObjectId) (u : TodoBody)
    (now : Z) (coll : list Todo) :
  let owned t := existsb (N.eqb (_id t)) ids && (user t =? uid)%N in
  (updateMany (own_todos ids uid) u now coll).2
    = map (λ t, if owned t then apply_update u now t else t) coll ∧
  modifiedCount (updateMany (own_todos ids uid) u now coll).1
    = VNum (Z.of_nat (length (List.filter
        (λ t, owned t && bool_decide (apply_update u now t ≠ t)) coll))).
Proof.
  intros owned. unfold updateMany. cbn [fst snd modifiedCount]. split.
  - apply map_ext. intros t. by rewrite selects_own_todos.
  - unfold count_of. do 3 f_equal. rewrite filter_filter_andb.
    apply filter_ext. intros t. by rewrite selects_own_todos.
Qed.

(** C9. A bulk archive whose only identifier belongs to another user changes
    nothing and reports no count at all ([0 || undefined]), where the bulk
    delete of the same identifier reports 0. *)
Theorem bulk_zero_is_not_reported (now : Z) :
  post_bulk 7 archive_1 now others_todo =
    (ok (Some "Bulk archive completed successfully")
        (Some {| reported_modifiedCount := VUndefined |}),
     others_todo) ∧
  post_bulk 7 delete_1 now others_todo =
    (ok (Some "Bulk delete completed successfully")
        (Some {| reported_modifiedCount := VNum 0 |}),
     others_todo).
Proof. split; reflexivity. Qed.

(** C10. A bulk request with the action [update-status] and no [status] is
    answered with status 400, whatever the identifiers, and leaves the
    collection as it was. *)
Theorem bulk_update_status_needs_status (uid : ObjectId) (ids : list ObjectId)
    (now : Z) (coll : list Todo) :
  statusCode (post_bulk uid {| action := "update-status"; todoIds := ids;
                               bulk_status := None |} now coll).1 = 400%Z ∧
  success (post_bulk uid {| action := "update-status"; todoIds := ids;
                            bulk_status := None |} now coll).1 = false ∧
  (post_bulk uid {| action := "update-status"; todoIds := ids;
                    bulk_status := None |} now coll).2 = coll.
Proof. destruct ids; repeat split; reflexivity. Qed.

(** ** Archiving *)




Lemma save_keeps (orig doc : Todo) (now : Z) (coll : list Todo) :
  _id (save orig doc now coll).1 = _id doc ∧
  archived (save orig doc now coll).1 = archived doc.
Proof. unfold save, pre_save. cbn [fst]. by destruct (_ && _). Qed.



Lemma findOneAndDelete_incl (q : gmap string clause) (coll : list Todo) (t : Todo) :
  In t (findOneAndDelete q coll).2 → In t coll.
Proof.
  induction coll as [|x rest IH]; [done|]. simpl.
  destruct (selects q x); cbn [snd].
  - by right.
  - intros [<- | Hin]; [by left | right; by apply IH].
Qed.



Ltac found_todo H :=
  match goal with
  | |- context [findOne (own_todo ?id ?uid) ?coll] =>
      destruct (findOne (own_todo id uid) coll) as [?t|] eqn:H;
      [apply findOne_own_todo in H as (? & ? & ?) | assumption]
  end.



(** *** What a listing shows *)

Lemma find_In (q : gmap string clause) (coll found : list Todo) (t : Todo) :
  find q coll = Some found → In t found →
  In t coll ∧ matches q t = Some true.
Proof.
  revert found. induction coll as [|x rest IH]; intros found Hf Hin; simpl in Hf.
  - injection Hf as <-. destruct Hin.
  - destruct (matches q x) as [b|] eqn:Hm; [|done]. simpl in Hf.
    destruct (find q rest) as [found'|]; [|done]. simpl in Hf.
    injection Hf as <-. destruct b.
    + destruct Hin as [<- | Hin]; [split; [by left | done]|].
      destruct (IH found' eq_refl Hin). split; [by right | done].
    + destruct (IH found' eq_refl Hin). split; [by right | done].
Qed.

Lemma insert_sorted_In (x t : Todo) (l : list Todo) :
  In t (insert_sorted x l) → t = x ∨ In t l.
Proof.
  induction l as [|y l IH]; simpl.
  - intros [<- | []]. by left.
  - destruct (sorts_before x y); simpl.
    + intros [<- | H]; [by left | by right].
    + intros [<- | H]; [right; by left|].
      destruct (IH H); [by left | right; by right].
Qed.

Lemma sort_todos_In (t : Todo) (l : list Todo) :
  In t (sort_todos l) → In t l.
Proof.
  induction l as [|x l IH]; simpl; [done|].
  intros [-> | H]%insert_sorted_In; [by left | right; by apply IH].
Qed.

Lemma take_drop_In (t : Todo) (n m : nat) (l : list Todo) :
  In t (take n (drop m l)) → In t l.
Proof.
  rewrite <- !list_elem_of_In. intros H.
  by apply (subseteq_drop m l), (subseteq_take n (drop m l)).
Qed.

(** A listed todo is a stored todo of the user that is not archived. *)
Lemma get_todos_lists (uid : ObjectId) (rq : ListQuery) (coll : list Todo)
    (r : Response ListData) (d : ListData) (t : Todo) :
  get_todos uid rq coll = Some r → data r = Some d → In t (todos d) →
  In t coll ∧ user t = uid ∧ archived t = false.
Proof.
  unfold get_todos. destruct (negb (valid_list_query rq)).
  { intros [= <-] [=]. }
  unfold findByUser.
  destruct (find _ coll) as [found|] eqn:Hf; [|done]. cbn [fmap option_fmap option_map mbind option_bind].
  destruct (countDocuments _ coll) as [n|]; [|done]. cbn [mbind option_bind].
  intros [= <-] [= <-]. cbn [todos]. intros Hin.
  apply take_drop_In, sort_todos_In in Hin.
  destruct (find_In _ _ _ _ Hf Hin) as [Hc Hm].
  split; [done|]. by apply findByUser_query_selects in Hm.
Qed.

(** *** What the statistics count *)






(** * Further properties *)

(** ** The listing order *)

Lemma sorts_before_total (a b : Todo) :
  sorts_before a b = false → sorts_before b a = true.
Proof.
  unfold sorts_before. intros H.
  apply orb_false_iff in H as [H1 H2].
  apply Z.ltb_ge in H1. apply andb_false_iff in H2.
  apply orb_true_iff.
  destruct (Z.eq_dec (order a) (order b)) as [He|Hne].
  - right. apply andb_true_iff. split; [apply Z.eqb_eq; lia|].
    destruct H2 as [H2|H2]; [apply Z.eqb_neq in H2; lia|].
    apply Z.leb_gt in H2. apply Z.leb_le. lia.
  - left. apply Z.ltb_lt. lia.
Qed.

Lemma listed_before_trans (a b c : Todo) :
  listed_before a b → listed_before b c → listed_before a c.
Proof.
  unfold listed_before, sorts_before.
  rewrite !orb_true_iff, !andb_true_iff, !Z.ltb_lt, !Z.eqb_eq, !Z.leb_le.
  lia.
Qed.

Lemma insert_sorted_perm (t : Todo) (l : list Todo) :
  insert_sorted t l ≡ₚ t :: l.
Proof.
  induction l as [|x l IH]; simpl; [done|].
  destruct (sorts_before t x); [done|].
  rewrite IH. apply Permutation_swap.
Qed.

Lemma insert_sorted_sorted (t : Todo) (l : list Todo) :
  StronglySorted listed_before l →
  StronglySorted listed_before (insert_sorted t l).
Proof.
  induction l as [|x l IH]; simpl; intros Hs.
  - repeat constructor.
  - apply StronglySorted_cons in Hs as [Hx Hl].
    destruct (sorts_before t x) eqn:Htx.
    + apply StronglySorted_cons. split.
      * constructor; [exact Htx|].
        eapply Forall_impl; [exact Hx|].
        intros y Hxy. by apply (listed_before_trans t x y).
      * apply StronglySorted_cons. done.
    + apply StronglySorted_cons. split; [|by apply IH].
      rewrite insert_sorted_perm. constructor; [|done].
      by apply sorts_before_total.
Qed.

Lemma sort_todos_perm (l : list Todo) : sort_todos l ≡ₚ l.
Proof.
  induction l as [|t l IH]; simpl; [done|]. by rewrite insert_sorted_perm, IH.
Qed.

Lemma sort_todos_StronglySorted (l : list Todo) :
  StronglySorted listed_before (sort_todos l).
Proof.
  induction l as [|t l IH]; simpl; [constructor | by apply insert_sorted_sorted].
Qed.

(** X1. The sort of a listing rearranges the matching todos without losing
    or repeating any, and puts every todo before all those that come later
    in the order ([order] ascending, [createdAt] descending). *)
Theorem sort_todos_sorted (l : list Todo) :
  sort_todos l ≡ₚ l ∧ StronglySorted listed_before (sort_todos l).
Proof.
  split; [apply sort_todos_perm | apply sort_todos_StronglySorted].
Qed.

(** Two todos that each come before the other have the same keys. *)
Lemma listed_before_antisym (a b : Todo) :
  listed_before a b → listed_before b a →
  order a = order b ∧ createdAt a = createdAt b.
Proof.
  unfold listed_before, sorts_before. intros Hab Hba.
  apply orb_true_iff in Hab as [Hab%Z.ltb_lt | [Hab1%Z.eqb_eq Hab2%Z.leb_le]%andb_true_iff];
    apply orb_true_iff in Hba as [Hba%Z.ltb_lt | [Hba1%Z.eqb_eq Hba2%Z.leb_le]%andb_true_iff];
    lia.
Qed.

(** When the keys tell the todos apart, the listing order admits one
    arrangement of them. *)
Lemma sorted_unique (l l' : list Todo) :
  distinct_keys l → l ≡ₚ l' →
  StronglySorted listed_before l → StronglySorted listed_before l' → l = l'.
Proof.
  revert l'. induction l as [|a l IH]; intros l' Hk Hp Hs Hs'.
  - by apply Permutation_nil in Hp.
  - destruct l' as [|b l']; [by apply Permutation_sym, Permutation_nil in Hp|].
    apply StronglySorted_inv in Hs as [Hs Ha].
    apply StronglySorted_inv in Hs' as [Hs' Hb].
    rewrite List.Forall_forall in Ha, Hb.
    assert (In a (a :: l)) as Ina by (by left).
    assert (In b (a :: l)) as Inb
      by (apply (Permutation_in b (Permutation_sym Hp)); by left).
    assert (a = b) as <-.
    { pose proof (Permutation_in a Hp Ina) as [<- | Hal']; [reflexivity|].
      destruct Inb as [<- | Hbl]; [reflexivity|].
      destruct (listed_before_antisym a b (Ha b Hbl) (Hb a Hal')) as [Ho Hc].
      apply Hk; [exact Ina | by right | exact Ho | exact Hc]. }
    f_equal. apply IH; [| by apply Permutation_cons_inv in Hp | done | done].
    intros x y Hx Hy. apply Hk; by right.
Qed.

Lemma StronglySorted_take_drop (n m : nat) (l : list Todo) :
  StronglySorted listed_before l →
  StronglySorted listed_before (take n (drop m l)).
Proof.
  intros H.
  rewrite <- (take_drop m l) in H. apply StronglySorted_app in H as (_ & _ & H).
  rewrite <- (take_drop n (drop m l)) in H.
  by apply StronglySorted_app in H as (_ & H & _).
Qed.

(** The parts of a successful listing. *)
Lemma get_todos_inv (uid : ObjectId) (rq : ListQuery) (coll : list Todo)
    (r : Response ListData) (d : ListData) :
  get_todos uid rq coll = Some r → data r = Some d →
  valid_list_query rq = true ∧
  ∃ found n,
    find (findByUser_query uid (list_options rq)) coll = Some found ∧
    countDocuments (count_query uid (opt_value VStr (trim <$> q_search rq))) coll
      = Some n ∧
    todos d = take (Z.to_nat (default 20%Z (q_limit rq) * 1))
                   (drop (Z.to_nat ((default 1%Z (q_page rq) - 1)
                                    * default 20%Z (q_limit rq)))
                         (sort_todos found)) ∧
    pagination d = {| current := default 1%Z (q_page rq);
                      pages := ceil_div (Z.of_nat n) (default 20%Z (q_limit rq));
                      total := Z.of_nat n |}.
Proof.
  unfold get_todos. destruct (valid_list_query rq); cbn [negb].
  2:{ intros [= <-] [=]. }
  unfold findByUser.
  destruct (find _ coll) as [found|]; [|done].
  cbn [fmap option_fmap option_map mbind option_bind].
  destruct (countDocuments _ coll) as [n|]; [|done].
  cbn [mbind option_bind]. intros [= <-] [= <-].
  split; [done|]. by exists found, n.
Qed.

(** X2. A page of a listing holds at most [limit] todos (20 when no limit
    is given, never more than 100), in the listing order, and each of them
    is a stored, unarchived todo of the requesting user. *)
Theorem get_todos_page (uid : ObjectId) (rq : ListQuery) (coll : list Todo)
    (r : Response ListData) (d : ListData) :
  get_todos uid rq coll = Some r → data r = Some d →
  (Z.of_nat (length (todos d)) ≤ default 20 (q_limit rq) ≤ 100)%Z ∧
  StronglySorted listed_before (todos d) ∧
  ∀ t, In t (todos d) → In t coll ∧ user t = uid ∧ archived t = false.
Proof.
  intros Hr Hd.
  destruct (get_todos_inv _ _ _ _ _ Hr Hd) as (Hv & found & n & Hf & _ & Ht & _).
  split; [|split].
  - rewrite Ht, length_take.
    unfold valid_list_query in Hv. rewrite !andb_true_iff in Hv.
    destruct Hv as (_ & Hl).
    destruct (q_limit rq) as [l|]; cbn [optional from_option id] in *; [|lia].
    apply andb_true_iff in Hl as [?%Z.leb_le ?%Z.leb_le]. lia.
  - rewrite Ht. apply StronglySorted_take_drop, sort_todos_StronglySorted.
  - intros t. by apply (get_todos_lists uid rq coll r d t).
Qed.

Lemma get_todos_page_witness :
  (Z.of_nat (length [sample 2 7 "Pay rent" "completed"]) ≤ 1 ≤ 100)%Z.
Proof.
  apply (get_todos_page 7 completed_only two_todos
           (ok None (Some {| todos := [sample 2 7 "Pay rent" "completed"];
                             pagination := {| current := 1; pages := 2; total := 2 |} |}))
           {| todos := [sample 2 7 "Pay rent" "completed"];
              pagination := {| current := 1; pages := 2; total := 2 |} |});
    vm_compute; reflexivity.
Defined.

(** ** The options of a listing *)

Lemma list_options_get (rq : ListQuery) :
  get (list_options rq) "status"
    = (if is_filter (q_status rq) then opt_value VStr (q_status rq) else VUndefined) ∧
  get (list_options rq) "priority"
    = (if is_filter (q_priority rq) then opt_value VStr (q_priority rq) else VUndefined) ∧
  get (list_options rq) "category"
    = (if is_filter (q_category rq) then opt_value VStr (q_category rq) else VUndefined) ∧
  get (list_options rq) "starred"
    = (if is_filter (q_starred rq)
       then VBool (bool_decide (q_starred rq = Some "true")) else VUndefined) ∧
  get (list_options rq) "search" = opt_value VStr (trim <$> q_search rq).
Proof.
  unfold list_options, get. rewrite !map_lookup_filter.
  destruct (q_status rq) as [s1|], (q_priority rq) as [s2|],
           (q_category rq) as [s3|], (q_starred rq) as [s4|],
           (q_search rq) as [s5|]; cbn [is_filter opt_value fmap option_fmap option_map];
    split_ifs;
    rewrite ?lookup_insert_eq, ?lookup_insert_ne, ?lookup_singleton_eq,
            ?lookup_singleton_ne by discriminate;
    repeat split; reflexivity.
Qed.

(** What the four conditional assignments of [findByUser] ask of a
    document. *)
Lemma filtered_enforces (options : gmap string value) (q : gmap string clause) (t : Todo) :
  q !! "status" = None → q !! "priority" = None → q !! "category" = None →
  q !! "starred" = None →
  matches (filtered options q) t = Some true →
  (js_truthy (get options "status") = true →
   query_eq (cast_value "status" (get options "status")) (VStr (status t)) = true) ∧
  (js_truthy (get options "priority") = true →
   query_eq (cast_value "priority" (get options "priority")) (VStr (priority t))
   = true) ∧
  (js_truthy (get options "category") = true →
   query_eq (cast_value "category" (get options "category"))
            (opt_value VStr (category t)) = true) ∧
  (get options "starred" ≠ VUndefined →
   query_eq (cast_value "starred" (get options "starred")) (VBool (starred t))
   = true).
Proof.
  intros H1 H2 H3 H4. unfold filtered.
  destruct (js_truthy (get options "status")) eqn:E1,
           (js_truthy (get options "priority")) eqn:E2,
           (js_truthy (get options "category")) eqn:E3,
           (bool_decide (get options "starred" ≠ VUndefined)) eqn:E4;
    intros Hm;
    repeat match type of Hm with
           | matches (<[?k:=_]> _) _ = Some true =>
               let Hc := fresh "Hc" in
               apply matches_insert_true in Hm as [Hc Hm];
               [injection Hc as Hc
               | rewrite ?lookup_insert_ne by discriminate; assumption]
           end;
    repeat split; intros Hp; try discriminate Hp; try assumption;
    apply bool_decide_eq_false in E4; contradiction.
Qed.

Lemma query_eq_str_inv (a b : string) :
  query_eq (VStr a) (VStr b) = true → b = a.
Proof. simpl. intros H%bool_decide_eq_true. by injection H. Qed.

Lemma is_filter_Some (o : option string) :
  is_filter o = true → ∃ s, o = Some s ∧ js_truthy (VStr s) = true.
Proof.
  destruct o as [s|]; [|done]. simpl.
  intros [H _]%andb_true_iff. eauto.
Qed.

(** X3. Every filter of a listing that is given and is not ["all"] holds of
    every listed todo: its status and its priority are the requested ones,
    its category is the requested one trimmed (the filter is cast through
    the schema, where [category] is declared [trim: true]), and
    [starred=true] lists starred todos only, [starred=false] unstarred ones
    only. *)
Theorem get_todos_filters (uid : ObjectId) (rq : ListQuery) (coll : list Todo)
    (r : Response ListData) (d : ListData) (t : Todo) :
  get_todos uid rq coll = Some r → data r = Some d → In t (todos d) →
  (is_filter (q_status rq) = true → q_status rq = Some (status t)) ∧
  (is_filter (q_priority rq) = true → q_priority rq = Some (priority t)) ∧
  (is_filter (q_category rq) = true →
   ∃ c, q_category rq = Some c ∧ category t = Some (trim c)) ∧
  (q_starred rq = Some "true" → starred t = true) ∧
  (q_starred rq = Some "false" → starred t = false).
Proof.
  intros Hr Hd Hin.
  destruct (get_todos_inv _ _ _ _ _ Hr Hd) as (_ & found & n & Hf & _ & Ht & _).
  rewrite Ht in Hin. apply take_drop_In, sort_todos_In in Hin.
  destruct (find_In _ _ _ _ Hf Hin) as [_ Hm].
  rewrite findByUser_query_steps in Hm.
  apply searched_matches in Hm;
    [| rewrite filtered_lookup; [reflexivity | discriminate ..]].
  apply filtered_enforces in Hm as (Hst & Hpr & Hca & Hsr); try reflexivity.
  destruct (list_options_get rq) as (Gst & Gpr & Gca & Gsr & _).
  rewrite Gst in Hst. rewrite Gpr in Hpr. rewrite Gca in Hca. rewrite Gsr in Hsr.
  repeat split.
  - intros Hf1. rewrite Hf1 in Hst.
    destruct (is_filter_Some _ Hf1) as (s & Hs & Htr). rewrite Hs in *.
    f_equal. symmetry. by apply query_eq_str_inv, Hst.
  - intros Hf1. rewrite Hf1 in Hpr.
    destruct (is_filter_Some _ Hf1) as (s & Hs & Htr). rewrite Hs in *.
    f_equal. symmetry. by apply query_eq_str_inv, Hpr.
  - intros Hf1. rewrite Hf1 in Hca.
    destruct (is_filter_Some _ Hf1) as (s & Hs & Htr). rewrite Hs in *.
    specialize (Hca Htr). exists s. split; [reflexivity|].
    change (cast_value "category" (opt_value VStr (Some s))) with (VStr (trim s)) in Hca.
    destruct (category t) as [c|]; [|done].
    f_equal. by apply query_eq_str_inv.
  - intros Hs. rewrite Hs in Hsr. cbn in Hsr.
    specialize (Hsr ltac:(discriminate)). by destruct (starred t).
  - intros Hs. rewrite Hs in Hsr. cbn in Hsr.
    specialize (Hsr ltac:(discriminate)). by destruct (starred t).
Qed.

(** ** A search that is blank *)

Lemma filtered_ext (o o' : gmap string value) (q : gmap string clause) :
  get o "status" = get o' "status" → get o "priority" = get o' "priority" →
  get o "category" = get o' "category" → get o "starred" = get o' "starred" →
  filtered o q = filtered o' q.
Proof. unfold filtered. by intros -> -> -> ->. Qed.

Lemma list_options_with_search (s : option string) (rq : ListQuery)
    (q : gmap string clause) :
  filtered (list_options (with_search s rq)) q = filtered (list_options rq) q.
Proof.
  destruct (list_options_get rq) as (G1 & G2 & G3 & G4 & _).
  destruct (list_options_get (with_search s rq)) as (W1 & W2 & W3 & W4 & _).
  cbn [with_search q_status q_priority q_category q_starred] in W1, W2, W3, W4.
  apply filtered_ext; congruence.
Qed.

(** X4. A search made of white space only is no search: the listing is the
    one of the same request without the [search] parameter. *)
Theorem get_todos_blank_search (uid : ObjectId) (rq : ListQuery)
    (s : string) (coll : list Todo) :
  trim s = "" →
  get_todos uid (with_search (Some s) rq) coll
  = get_todos uid (with_search None rq) coll.
Proof.
  intros Hs. unfold get_todos, findByUser.
  rewrite !findByUser_query_steps, !list_options_with_search.
  unfold searched.
  destruct (list_options_get (with_search (Some s) rq)) as (_ & _ & _ & _ & ->).
  destruct (list_options_get (with_search None rq)) as (_ & _ & _ & _ & ->).
  cbn [with_search q_search q_page q_limit fmap option_fmap option_map opt_value].
  rewrite Hs. reflexivity.
Qed.

Lemma get_todos_blank_search_witness :
  get_todos 7 (with_search (Some "   ") everything) two_todos
  = get_todos 7 (with_search None everything) two_todos.
Proof. apply (get_todos_blank_search 7 everything "   " two_todos). reflexivity. Defined.

(** ** Pages *)

Lemma searched_base_matches (options : gmap string value) (uid : ObjectId) (t : Todo) :
  matches (searched options (filtered options (base_query uid))) t = Some true →
  matches (searched options (base_query uid)) t = Some true.
Proof.
  unfold searched. destruct (js_truthy (get options "search")).
  - intros [Hc Hm]%matches_insert_true;
      [| rewrite filtered_lookup; [reflexivity | discriminate ..]].
    apply filtered_matches in Hm; try reflexivity.
    rewrite matches_insert by reflexivity. by rewrite Hc, Hm.
  - intros Hm. by apply filtered_matches in Hm.
Qed.

Lemma count_query_searched (uid : ObjectId) (rq : ListQuery) :
  count_query uid (opt_value VStr (trim <$> q_search rq))
  = searched (list_options rq) (base_query uid).
Proof.
  unfold count_query, searched.
  by destruct (list_options_get rq) as (_ & _ & _ & _ & ->).
Qed.

Lemma find_length_le (q q' : gmap string clause) (coll found found' : list Todo) :
  (∀ t, matches q t = Some true → matches q' t = Some true) →
  find q coll = Some found → find q' coll = Some found' →
  (length found ≤ length found')%nat.
Proof.
  intros Himp. revert found found'.
  induction coll as [|x rest IH]; intros found found'; simpl.
  - intros [= <-] [= <-]. done.
  - destruct (matches q x) as [b|] eqn:Hb; [|done]. simpl.
    destruct (find q rest) as [f|]; [|done]. simpl.
    destruct (matches q' x) as [b'|] eqn:Hb'; [|done]. simpl.
    destruct (find q' rest) as [f'|]; [|done]. simpl.
    intros [= <-] [= <-]. specialize (IH f f' eq_refl eq_refl).
    destruct b.
    + rewrite (Himp x Hb) in Hb'. injection Hb' as <-. simpl. lia.
    + destruct b'; simpl; lia.
Qed.

(** X5. The reported total is never less than the number of todos the
    pages hold together, and a page past the reported page count is empty. *)
Theorem get_todos_past_last_page (uid : ObjectId) (rq : ListQuery)
    (coll : list Todo) (r : Response ListData) (d : ListData) :
  get_todos uid rq coll = Some r → data r = Some d →
  (∀ found, find (findByUser_query uid (list_options rq)) coll = Some found →
            (Z.of_nat (length found) ≤ total (pagination d))%Z) ∧
  ((pages (pagination d) < current (pagination d))%Z → todos d = []).
Proof.
  intros Hr Hd.
  destruct (get_todos_inv _ _ _ _ _ Hr Hd)
    as (Hv & found & n & Hf & Hn & Ht & Hp).
  assert (length found ≤ n)%nat as Hle.
  { unfold countDocuments in Hn.
    destruct (find (count_query _ _) coll) as [found'|] eqn:Hf'; [|done].
    injection Hn as <-.
    eapply (find_length_le _ _ coll found found'); [|exact Hf|exact Hf'].
    intros t. rewrite count_query_searched, findByUser_query_steps.
    apply searched_base_matches. }
  rewrite Hp, Ht. cbn [total pages current]. split.
  - intros found' Hf'. rewrite Hf in Hf'. injection Hf' as <-. lia.
  - intros Hlt. rewrite drop_ge; [apply take_nil|].
    rewrite (Permutation_length (sort_todos_perm found)).
    assert (1 ≤ default 20 (q_limit rq))%Z as Hl.
    { unfold valid_list_query in Hv. rewrite !andb_true_iff in Hv.
      destruct Hv as (_ & Hl).
      destruct (q_limit rq) as [l|]; cbn [optional from_option id] in *; [|lia].
      apply andb_true_iff in Hl as [?%Z.leb_le _]. lia. }
    pose proof (ceil_div_bounds (Z.of_nat n) (default 20%Z (q_limit rq))
                  ltac:(lia)) as [_ Hc].
    nia.
Qed.

Lemma find_complete (q : gmap string clause) (coll found : list Todo) (t : Todo) :
  find q coll = Some found → In t coll → matches q t = Some true → In t found.
Proof.
  revert found. induction coll as [|x rest IH]; intros found Hf Hin Hm; [done|].
  simpl in Hf.
  destruct (matches q x) as [b|] eqn:Hb; [|done]. simpl in Hf.
  destruct (find q rest) as [f|]; [|done]. simpl in Hf. injection Hf as <-.
  destruct Hin as [<- | Hin].
  - rewrite Hm in Hb. injection Hb as <-. by left.
  - specialize (IH f eq_refl Hin Hm). destruct b; [by right | done].
Qed.

Lemma valid_list_query_at_page (p : Z) (rq : ListQuery) :
  (1 ≤ p)%Z → valid_list_query rq = true → valid_list_query (at_page p rq) = true.
Proof.
  unfold valid_list_query. cbn [at_page q_status q_priority q_category q_starred
                                 q_page q_limit optional].
  rewrite !andb_true_iff. intros Hp (((((? & ?) & ?) & ?) & _) & ?).
  repeat split; try assumption. by apply Z.leb_le.
Qed.

(** X6. Paging loses nothing when the sort keys tell the matching todos
    apart. The database promises no order among todos with the same [order]
    and [createdAt], and every page is a query of its own; when no two todos
    that pass the filter share both keys, the listing order admits one
    arrangement of them, the one every page is cut from, and every stored
    todo that passes the filter is on one of the pages. *)
Theorem get_todos_reaches (uid : ObjectId) (rq : ListQuery) (coll : list Todo)
    (r : Response ListData) (d : ListData) (found : list Todo) (t : Todo) :
  get_todos uid rq coll = Some r → data r = Some d →
  find (findByUser_query uid (list_options rq)) coll = Some found →
  distinct_keys found →
  In t coll →
  matches (findByUser_query uid (list_options rq)) t = Some true →
  (∀ l, l ≡ₚ found → StronglySorted listed_before l → l = sort_todos found) ∧
  ∃ p r' d',
    (1 ≤ p)%Z ∧
    get_todos uid (at_page p rq) coll = Some r' ∧ data r' = Some d' ∧
    In t (todos d').
Proof.
  intros Hr Hd Hfound Hk Hin Hm. split.
  { intros l Hl Hs. symmetry. apply sorted_unique; [| | | exact Hs].
    - intros a b Ha Hb. apply Hk.
      + by apply (Permutation_in a (sort_todos_perm found)).
      + by apply (Permutation_in b (sort_todos_perm found)).
    - by rewrite sort_todos_perm, Hl.
    - apply sort_todos_StronglySorted. }
  destruct (get_todos_inv _ _ _ _ _ Hr Hd)
    as (Hv & found' & n & Hf & Hn & _ & _).
  rewrite Hfound in Hf. injection Hf as <-. rename Hfound into Hf.
  set (L := default 20%Z (q_limit rq)).
  assert (1 ≤ L)%Z as HL.
  { unfold valid_list_query in Hv. rewrite !andb_true_iff in Hv.
    destruct Hv as (_ & Hl). subst L.
    destruct (q_limit rq) as [l|]; cbn [optional from_option id] in *; [|lia].
    apply andb_true_iff in Hl as [?%Z.leb_le _]. lia. }
  assert (t ∈ sort_todos found) as Hs.
  { apply list_elem_of_In.
    apply (Permutation_in t (Permutation_sym (sort_todos_perm found))).
    exact (find_complete _ coll found t Hf Hin Hm). }
  apply list_elem_of_lookup in Hs as [i Hi].
  pose proof (Z.div_mod (Z.of_nat i) L ltac:(lia)) as Hdm.
  pose proof (Z.mod_pos_bound (Z.of_nat i) L ltac:(lia)) as Hmod.
  assert (0 ≤ Z.of_nat i / L)%Z as Hq by (apply Z.div_pos; lia).
  exists (Z.of_nat i / L + 1)%Z.
  eexists. eexists. split; [lia|].
  unfold get_todos, findByUser.
  rewrite (valid_list_query_at_page _ rq) by (lia || assumption).
  change (list_options (at_page (Z.of_nat i / L + 1) rq)) with (list_options rq).
  change (q_search (at_page (Z.of_nat i / L + 1) rq)) with (q_search rq).
  rewrite Hf, Hn.
  cbn [negb fmap option_fmap option_map mbind option_bind].
  split; [reflexivity|]. split; [reflexivity|].
  cbn [todos at_page q_page q_limit from_option id]. fold L.
  apply list_elem_of_In, list_elem_of_lookup.
  exists (i - Z.to_nat ((Z.of_nat i / L + 1 - 1) * L))%nat.
  rewrite lookup_take_lt by lia.
  rewrite lookup_drop, <- Hi. f_equal. lia.
Qed.

(** ** The six counts *)

Lemma string_compare_eqb (a b : string) :
  match String.compare a b with Eq => true | _ => false end = (a =? b).
Proof.
  pose proof (string_compare_ne a b) as H.
  destruct (String.compare a b), (a =? b); simpl in *; congruence.
Qed.

Lemma one_if_eq_str (a b : string) :
  one_if (op_eq (VStr a) (VStr b)) = if a =? b then 1%Z else 0%Z.
Proof. unfold one_if, op_eq, bson_compare. by rewrite string_compare_eqb. Qed.

Lemma filter_none {A} (p : A → bool) (l : list A) :
  (∀ x, In x l → p x = false) → List.filter p l = [].
Proof.
  induction l as [|x l IH]; intros H; [done|]. simpl.
  rewrite (H x) by (by left). apply IH. intros y Hy. apply H. by right.
Qed.

Lemma filter_length_le {A} (p q : A → bool) (l : list A) :
  (∀ x, In x l → p x = true → q x = true) →
  (length (List.filter p l) ≤ length (List.filter q l))%nat.
Proof.
  induction l as [|x l IH]; intros H; [done|]. simpl.
  assert (length (List.filter p l) ≤ length (List.filter q l))%nat as Hl
    by (apply IH; intros y Hy; apply H; by right).
  destruct (p x) eqn:Hp.
  - rewrite (H x (or_introl eq_refl) Hp). simpl. lia.
  - destruct (q x); simpl; lia.
Qed.

Lemma stats_match_spec (uid : ObjectId) (t : Todo) :
  stats_match uid t = (user t =? uid)%N && negb (archived t).
Proof.
  unfold stats_match.
  change (field t "user") with (VOid (user t)).
  change (field t "archived") with (VBool (archived t)).
  rewrite query_eq_oid, query_eq_bool. by destruct (archived t).
Qed.

Lemma filter_all_true {A} (l : list A) : List.filter (λ _, true) l = l.
Proof. induction l as [|x l IH]; [done|]. simpl. by rewrite IH. Qed.

Section Counts.

Variable dateToString : Z → string.
Variable dateFromString : string → option Z.

Lemma fold_group_step (now : Z) (docs : list Todo) (acc : Stats) :
  fold_left (group_step dateToString dateFromString now) docs acc =
  {| stats_total := stats_total acc + Z.of_nat (length docs);
     stats_completed := stats_completed acc +
       Z.of_nat (length (List.filter (λ t, (status t =? "completed")%string) docs));
     stats_pending := stats_pending acc +
       Z.of_nat (length (List.filter (λ t, (status t =? "pending")%string) docs));
     stats_inProgress := stats_inProgress acc +
       Z.of_nat (length (List.filter (λ t, (status t =? "in-progress")%string) docs));
     stats_highPriority := stats_highPriority acc +
       Z.of_nat (length (List.filter (λ t, (priority t =? "high")%string) docs));
     stats_overdue := stats_overdue acc +
       Z.of_nat (length (List.filter
                           (counted_overdue dateToString dateFromString now) docs))
  |}%Z.
Proof.
  revert acc. induction docs as [|t docs IH]; intros acc.
  - destruct acc. simpl. f_equal; lia.
  - cbn [fold_left]. rewrite IH. unfold group_step.
    cbn [stats_total stats_completed stats_pending stats_inProgress
         stats_highPriority stats_overdue List.filter].
    change (field t "status") with (VStr (status t)).
    change (field t "priority") with (VStr (priority t)).
    rewrite !one_if_eq_str. unfold one_if. rewrite overdue_cond_counted.
    destruct (status t =? "completed"), (status t =? "pending"),
             (status t =? "in-progress"), (priority t =? "high"),
             (counted_overdue dateToString dateFromString now t);
      cbn [length]; f_equal; lia.
Qed.

Lemma get_stats_data (uid : ObjectId) (now : Z) (coll : list Todo) :
  data (get_stats dateToString dateFromString uid now coll) =
  Some {| stats_total := count_where uid (λ _, true) coll;
          stats_completed := count_where uid (λ t, status t =? "completed") coll;
          stats_pending := count_where uid (λ t, status t =? "pending") coll;
          stats_inProgress := count_where uid (λ t, status t =? "in-progress") coll;
          stats_highPriority := count_where uid (λ t, priority t =? "high") coll;
          stats_overdue :=
            count_where uid (counted_overdue dateToString dateFromString now) coll |}.
Proof.
  unfold get_stats, getStats, ok, count_where. cbn [data]. f_equal.
  rewrite <- !filter_filter_andb.
  destruct (List.filter (stats_match uid) coll) as [|t docs]; [reflexivity|].
  cbn [head default from_option id]. rewrite fold_group_step.
  cbn [no_stats stats_total stats_completed stats_pending stats_inProgress
       stats_highPriority stats_overdue].
  rewrite filter_all_true. f_equal; apply Z.add_0_l.
Qed.

(** X7. The statistics of a user are six counts over the user's unarchived
    todos: all of them, those of each status, those of high priority, and
    those that are not completed and either have no due date or are past
    their due instant. Todos of other users and archived todos change
    nothing, and with no todo to count every count is zero. *)
Theorem get_stats_counts (uid : ObjectId) (now : Z) (coll : list Todo) :
  data (get_stats dateToString dateFromString uid now coll) =
  Some {| stats_total := count_where uid (λ _, true) coll;
          stats_completed := count_where uid (λ t, status t =? "completed") coll;
          stats_pending := count_where uid (λ t, status t =? "pending") coll;
          stats_inProgress := count_where uid (λ t, status t =? "in-progress") coll;
          stats_highPriority := count_where uid (λ t, priority t =? "high") coll;
          stats_overdue :=
            count_where uid (counted_overdue dateToString dateFromString now) coll |} ∧
  ((∀ t, In t coll → user t = uid → archived t = true) →
   data (get_stats dateToString dateFromString uid now coll) = Some no_stats).
Proof.
  split; [apply get_stats_data|].
  intros Hnone. unfold get_stats, getStats.
  replace (List.filter (stats_match uid) coll) with (@nil Todo); [reflexivity|].
  symmetry. apply filter_none. intros t Hin. rewrite stats_match_spec.
  destruct (N.eqb_spec (user t) uid) as [Hu|]; [|done].
  by rewrite (Hnone t Hin Hu).
Qed.

(** X8. When the status of every counted todo is one of the three allowed
    values, the counts by status add up to the total; the high-priority
    count is at most the total, and the overdue count is at most the number
    of todos that are pending or in progress. *)
Theorem get_stats_partition (uid : ObjectId) (now : Z) (coll : list Todo) (s : Stats) :
  (∀ t, In t coll → stats_match uid t = true → isIn (status t) statuses = true) →
  data (get_stats dateToString dateFromString uid now coll) = Some s →
  (stats_total s = stats_completed s + stats_pending s + stats_inProgress s)%Z ∧
  (0 ≤ stats_highPriority s ≤ stats_total s)%Z ∧
  (0 ≤ stats_overdue s ≤ stats_pending s + stats_inProgress s)%Z.
Proof.
  intros Hvalid. rewrite get_stats_data. intros [= <-].
  cbn [stats_total stats_completed stats_pending stats_inProgress
       stats_highPriority stats_overdue].
  unfold count_where. cbv beta.
  assert (∀ p, (length (List.filter (λ t, stats_match uid t && p t) coll)
                ≤ length (List.filter (λ t, stats_match uid t && true) coll))%nat)
    as Hle.
  { intros p. apply filter_length_le. intros t _ [-> _]%andb_true_iff. done. }
  assert (length (List.filter (λ t, stats_match uid t && true) coll)
          = length (List.filter (λ t, stats_match uid t && (status t =? "completed")%string) coll)
            + length (List.filter (λ t, stats_match uid t && (status t =? "pending")%string) coll)
            + length (List.filter (λ t, stats_match uid t && (status t =? "in-progress")%string) coll))%nat
    as Hsum.
  { clear Hle. induction coll as [|t l IH]; [done|].
    assert (∀ x, In x l → stats_match uid x = true → isIn (status x) statuses = true)
      as Hl by (intros x Hx; apply Hvalid; by right).
    specialize (IH Hl). cbn [List.filter].
    destruct (stats_match uid t) eqn:Hm; cbn [andb]; [|exact IH].
    specialize (Hvalid t (or_introl eq_refl) Hm).
    unfold isIn, statuses in Hvalid. cbn [existsb] in Hvalid.
    destruct (String.eqb_spec (status t) "pending") as [Hp|Hp].
    { rewrite Hp. cbn. lia. }
    destruct (String.eqb_spec (status t) "in-progress") as [Hi|Hi].
    { rewrite Hi. cbn. lia. }
    destruct (String.eqb_spec (status t) "completed") as [Hc|Hc]; [|done].
    cbn. lia. }
  assert (length (List.filter
            (λ t, stats_match uid t && counted_overdue dateToString dateFromString now t) coll)
          + length (List.filter (λ t, stats_match uid t && (status t =? "completed")%string) coll)
          ≤ length (List.filter (λ t, stats_match uid t && true) coll))%nat as Hov.
  { clear Hle Hsum Hvalid. induction coll as [|t l IH]; [done|]. cbn [List.filter].
    destruct (stats_match uid t); cbn [andb]; [|exact IH].
    unfold counted_overdue at 1.
    destruct (status t =? "completed"); cbn [negb andb length]; [lia|].
    destruct (match spec_due_datetime _ _ t with Some _ => _ | None => _ end);
      cbn [length]; lia. }
  pose proof (Hle (λ t, priority t =? "high")) as Hhigh. cbv beta in Hhigh.
  lia.
Qed.


End Counts.

(** ** What every request keeps *)

Lemma map_id_replace_doc (d : Todo) (coll : list Todo) :
  map _id (replace_doc d coll) = map _id coll.
Proof.
  unfold replace_doc. rewrite map_map. apply map_ext. intros x.
  by destruct (N.eqb_spec (_id x) (_id d)).
Qed.

Lemma map_id_findOneAndUpdate (q : gmap string clause) (u : TodoBody) (now : Z)
    (coll : list Todo) :
  map _id (findOneAndUpdate q u now coll).2 = map _id coll.
Proof.
  induction coll as [|t rest IH]; [done|]. simpl.
  destruct (selects q t); cbn [snd map]; [done | by rewrite IH].
Qed.

Lemma map_id_updateMany (q : gmap string clause) (u : TodoBody) (now : Z)
    (coll : list Todo) :
  map _id (updateMany q u now coll).2 = map _id coll.
Proof.
  unfold updateMany. cbn [snd]. rewrite map_map. apply map_ext. intros t.
  by destruct (selects q t).
Qed.

Lemma unique_ids_filter (p : Todo → bool) (coll : list Todo) :
  unique_ids coll → unique_ids (List.filter p coll).
Proof.
  unfold unique_ids. induction coll as [|t rest IH]; [done|]. simpl.
  intros [Hn Hr]%NoDup_cons. destruct (p t); [|by apply IH].
  simpl. apply NoDup_cons. split; [|by apply IH].
  intros (x & Hx & [Hin _]%filter_In)%list_elem_of_In%in_map_iff.
  apply Hn, list_elem_of_In, in_map_iff. eauto.
Qed.

Lemma unique_ids_findOneAndDelete (q : gmap string clause) (coll : list Todo) :
  unique_ids coll → unique_ids (findOneAndDelete q coll).2.
Proof.
  unfold unique_ids. induction coll as [|t rest IH]; [done|]. simpl.
  intros [Hn Hr]%NoDup_cons. destruct (selects q t); cbn [snd]; [done|].
  simpl. apply NoDup_cons. split; [|by apply IH].
  intros (x & Hx & Hin%findOneAndDelete_incl)%list_elem_of_In%in_map_iff.
  apply Hn, list_elem_of_In, in_map_iff. eauto.
Qed.

Lemma unique_ids_save (orig doc : Todo) (now : Z) (coll : list Todo) :
  unique_ids coll → unique_ids (save orig doc now coll).2.
Proof.
  unfold unique_ids, save. cbn [snd]. by rewrite map_id_replace_doc.
Qed.

(** X9. No request makes two todos share an identifier: a collection with
    unique identifiers has unique identifiers after any request. *)
Theorem serve_unique_ids (uid : ObjectId) (now : Z) (r : request) (coll : list Todo) :
  unique_ids coll → unique_ids (serve uid now r coll).
Proof.
  intros H. destruct r; cbn [serve]; try assumption.
  - unfold post_todo. destruct (negb _); [assumption|].
    destruct (negb _); [assumption|].
    destruct (existsb _ coll) eqn:Hex; [assumption|]. cbn [snd].
    assert (_id (pre_save_new (new_todo newId uid (sanitize_body body) now) now)
            = newId) as Hid by (unfold pre_save_new; by destruct (_ && _)).
    unfold unique_ids. rewrite map_app. cbn [map]. rewrite Hid.
    apply NoDup_app. split; [exact H|]. split; [|apply NoDup_singleton].
    intros x Hx [Hx'|[]]%list_elem_of_In. subst x. apply list_elem_of_In in Hx.
    apply in_map_iff in Hx as (t & Ht & Hin).
    assert (existsb (λ t, (_id t =? newId)%N) coll = true) as Hc; [|congruence].
    apply existsb_exists. exists t. split; [done|]. by apply N.eqb_eq.
  - unfold put_todo. destruct (negb _); [assumption|].
    assert (unique_ids (findOneAndUpdate (own_todo id uid) (sanitize_body body)
                          now coll).2) as Hu
      by (unfold unique_ids; by rewrite map_id_findOneAndUpdate).
    by destruct (findOneAndUpdate _ _ _ _).1.
  - unfold patch_toggle. destruct (findOne _ coll); [|assumption].
    by apply unique_ids_save.
  - unfold delete_todo.
    pose proof (unique_ids_findOneAndDelete (own_todo id uid) coll H) as Hd.
    by destruct (findOneAndDelete _ _).1.
  - unfold patch_archive.
    assert (unique_ids (findOneAndUpdate (own_todo id uid) archive_update now coll).2)
      as Hu by (unfold unique_ids; by rewrite map_id_findOneAndUpdate).
    by destruct (findOneAndUpdate _ _ _ _).1.
  - unfold post_subtask. destruct (negb _); [assumption|].
    destruct (findOne _ coll); [|assumption]. by apply unique_ids_save.
  - unfold patch_subtask. destruct (findOne _ coll) as [t|]; [|assumption].
    unfold toggleSubtask. destruct (subtask_by_id _ _); [|assumption].
    by apply unique_ids_save.
  - unfold post_comment. destruct (negb _); [assumption|].
    destruct (findOne _ coll); [|assumption]. by apply unique_ids_save.
  - unfold post_bulk. destruct (negb _); [assumption|].
    destruct (action body =? "delete").
    { cbn [snd deleteMany]. by apply unique_ids_filter. }
    destruct (action body =? "archive").
    { cbn [snd]. unfold unique_ids. by rewrite map_id_updateMany. }
    destruct (action body =? "update-status"); [|assumption].
    destruct (bulk_status body) as [st|]; [|assumption].
    destruct (negb _); [assumption|].
    cbn [snd]. unfold unique_ids. by rewrite map_id_updateMany.
Qed.

Lemma unique_ids_inj (coll : list Todo) (a b : Todo) :
  unique_ids coll → In a coll → In b coll → _id a = _id b → a = b.
Proof.
  unfold unique_ids. induction coll as [|x rest IH]; [done|]. simpl.
  intros [Hn Hr]%NoDup_cons [<- | Ha] [<- | Hb] Hid; try done.
  - exfalso. apply Hn, list_elem_of_In, in_map_iff. eauto.
  - exfalso. apply Hn, list_elem_of_In, in_map_iff. eauto.
  - by apply IH.
Qed.

Lemma In_replace_doc (d t : Todo) (coll : list Todo) :
  In t coll → _id t ≠ _id d → In t (replace_doc d coll).
Proof.
  intros Hin Hne. apply in_map_iff. exists t. split; [|done].
  by destruct (N.eqb_spec (_id t) (_id d)).
Qed.

Lemma In_findOneAndUpdate (q : gmap string clause) (u : TodoBody) (now : Z)
    (coll : list Todo) (t : Todo) :
  In t coll → selects q t = false → In t (findOneAndUpdate q u now coll).2.
Proof.
  intros Hin Hsel. induction coll as [|x rest IH]; [done|]. simpl.
  destruct (selects q x) eqn:Hx; cbn [snd].
  - destruct Hin as [<- | Hin]; [congruence | by right].
  - destruct Hin as [<- | Hin]; [by left | right; by apply IH].
Qed.

Lemma In_findOneAndDelete (q : gmap string clause) (coll : list Todo) (t : Todo) :
  In t coll → selects q t = false → In t (findOneAndDelete q coll).2.
Proof.
  intros Hin Hsel. induction coll as [|x rest IH]; [done|]. simpl.
  destruct (selects q x) eqn:Hx; cbn [snd].
  - destruct Hin as [<- | Hin]; [congruence | done].
  - destruct Hin as [<- | Hin]; [by left | right; by apply IH].
Qed.

Lemma In_updateMany (q : gmap string clause) (u : TodoBody) (now : Z)
    (coll : list Todo) (t : Todo) :
  In t coll → selects q t = false → In t (updateMany q u now coll).2.
Proof.
  intros Hin Hsel. unfold updateMany. cbn [snd].
  apply in_map_iff. exists t. by rewrite Hsel.
Qed.

Lemma selects_own_todo_other (id uid : ObjectId) (t : Todo) :
  user t ≠ uid → selects (own_todo id uid) t = false.
Proof.
  intros H. rewrite selects_own_todo. apply andb_false_iff. right.
  by apply N.eqb_neq.
Qed.

Lemma selects_own_todos_other (ids : list ObjectId) (uid : ObjectId) (t : Todo) :
  user t ≠ uid → selects (own_todos ids uid) t = false.
Proof.
  intros H. rewrite selects_own_todos. apply andb_false_iff. right.
  by apply N.eqb_neq.
Qed.

(** A todo of another user stays when a todo of [uid] is saved. *)
Lemma In_save_other (uid : ObjectId) (orig doc t : Todo) (now : Z) (coll : list Todo) :
  unique_ids coll → In orig coll → user orig = uid → _id doc = _id orig →
  In t coll → user t ≠ uid →
  In t (save orig doc now coll).2.
Proof.
  intros Hu Ho Huo Hid Hin Hne. unfold save. cbn [snd].
  apply In_replace_doc; [done|].
  destruct (save_keeps orig doc now coll) as [Hid' _].
  unfold save in Hid'. cbn [fst] in Hid'. rewrite Hid', Hid.
  intros Heq. apply Hne. by rewrite (unique_ids_inj coll t orig Hu Hin Ho Heq).
Qed.

(** X10. What one user asks never touches the todos of another: in a
    collection with unique identifiers, every todo owned by someone else is
    still there, unchanged, after any request of the user. *)
Theorem serve_leaves_others (uid : ObjectId) (now : Z) (r : request)
    (coll : list Todo) (t : Todo) :
  unique_ids coll → In t coll → user t ≠ uid →
  In t (serve uid now r coll).
Proof.
  intros Hu Hin Hne. destruct r; cbn [serve]; try assumption.
  - unfold post_todo. repeat (destruct (negb _) || destruct (existsb _ _));
      try assumption.
    cbn [snd]. apply in_app_iff. by left.
  - unfold put_todo. destruct (negb _); [assumption|].
    assert (In t (findOneAndUpdate (own_todo id uid) (sanitize_body body) now coll).2)
      as H by (apply In_findOneAndUpdate; [done | by apply selects_own_todo_other]).
    by destruct (findOneAndUpdate _ _ _ _).1.
  - unfold patch_toggle. found_todo Hf. cbn [snd]. unfold toggleStatus.
    apply (In_save_other uid); try done. by destruct (status t0 =? "completed").
  - unfold delete_todo.
    assert (In t (findOneAndDelete (own_todo id uid) coll).2) as H
      by (apply In_findOneAndDelete; [done | by apply selects_own_todo_other]).
    by destruct (findOneAndDelete _ _).1.
  - unfold patch_archive.
    assert (In t (findOneAndUpdate (own_todo id uid) archive_update now coll).2)
      as H by (apply In_findOneAndUpdate; [done | by apply selects_own_todo_other]).
    by destruct (findOneAndUpdate _ _ _ _).1.
  - unfold post_subtask. destruct (negb _); [assumption|].
    found_todo Hf. cbn [snd]. unfold addSubtask. by apply (In_save_other uid).
  - unfold patch_subtask. found_todo Hf. unfold toggleSubtask.
    destruct (subtask_by_id sid (subtasks t0)); [|assumption].
    cbn [snd]. by apply (In_save_other uid).
  - unfold post_comment. destruct (negb _); [assumption|].
    found_todo Hf. cbn [snd]. unfold addComment. by apply (In_save_other uid).
  - unfold post_bulk. destruct (negb _); [assumption|].
    destruct (action body =? "delete").
    { cbn [snd deleteMany]. apply filter_In. split; [done|].
      by rewrite selects_own_todos_other. }
    destruct (action body =? "archive").
    { cbn [snd]. apply In_updateMany; [done | by apply selects_own_todos_other]. }
    destruct (action body =? "update-status"); [|assumption].
    destruct (bulk_status body) as [st|]; [|assumption].
    destruct (negb _); [assumption|].
    cbn [snd]. apply In_updateMany; [done | by apply selects_own_todos_other].
Qed.

(** ** Creating, fetching, deleting *)

Lemma findOne_app_new (q : gmap string clause) (coll : list Todo) (t : Todo) :
  (∀ x, In x coll → selects q x = false) →
  findOne q (coll ++ [t]) = if selects q t then Some t else None.
Proof.
  intros H. unfold findOne. induction coll as [|x rest IH]; simpl.
  - by destruct (selects q t).
  - rewrite (H x) by (by left). apply IH. intros y Hy. apply H. by right.
Qed.

Lemma post_todo_inv (uid newId : ObjectId) (body : TodoBody) (now : Z)
    (coll : list Todo) :
  statusCode (post_todo uid newId body now coll).1 = 201%Z →
  schema_valid (new_todo newId uid (sanitize_body body) now) = true ∧
  (∀ x, In x coll → _id x ≠ newId) ∧
  post_todo uid newId body now coll =
    (mkResponse 201 true (Some "Todo created successfully") None
       (Some (pre_save_new (new_todo newId uid (sanitize_body body) now) now)),
     coll ++ [pre_save_new (new_todo newId uid (sanitize_body body) now) now])%list.
Proof.
  unfold post_todo. destruct (negb (valid_create_body body)); [done|].
  destruct (schema_valid _); cbn [negb]; [|done].
  destruct (existsb _ coll) eqn:Hex; [done|]. intros _.
  split; [done|]. split; [|done].
  intros x Hx Hid.
  assert (existsb (λ t, (_id t =? newId)%N) coll = true) as Hc; [|congruence].
  apply existsb_exists. exists x. split; [done | by apply N.eqb_eq].
Qed.

(** X12. A todo that was created can be fetched: after a create answered
    with 201, [GET /:id] with the new identifier gives the requester the
    todo that the create returned, and gives any other user a 404. The
    todo belongs to the requester whatever owner the body names. *)
Theorem post_todo_then_get (uid newId : ObjectId) (body : TodoBody) (now : Z)
    (coll : list Todo) :
  statusCode (post_todo uid newId body now coll).1 = 201%Z →
  ∃ t,
    data (post_todo uid newId body now coll).1 = Some t ∧
    get_todo uid newId (post_todo uid newId body now coll).2 = ok None (Some t) ∧
    (∀ v, v ≠ uid →
          get_todo v newId (post_todo uid newId body now coll).2 = not_found) ∧
    _id t = newId ∧ user t = uid.
Proof.
  intros H. destruct (post_todo_inv _ _ _ _ _ H) as (_ & Hfresh & ->).
  set (t := pre_save_new (new_todo newId uid (sanitize_body body) now) now).
  assert (_id t = newId ∧ user t = uid) as (Hid & Hu).
  { subst t. unfold pre_save_new. by destruct (_ && _). }
  exists t. cbn [fst snd data]. split; [done|].
  assert (∀ v x, In x coll → selects (own_todo newId v) x = false) as Hnone.
  { intros v x Hx. rewrite selects_own_todo. apply andb_false_iff. left.
    apply N.eqb_neq. by apply Hfresh. }
  split; [|split; [|done]].
  - unfold get_todo. rewrite findOne_app_new by apply Hnone.
    rewrite selects_own_todo, Hid, Hu, !N.eqb_refl. reflexivity.
  - intros v Hv. unfold get_todo. rewrite findOne_app_new by apply Hnone.
    rewrite selects_own_todo, Hid, Hu, N.eqb_refl.
    apply N.eqb_neq in Hv. rewrite N.eqb_sym, Hv. reflexivity.
Qed.

(** X13. What a create fills in. A field the body leaves out gets the
    default of the schema (status pending, priority medium, not starred,
    not archived, order 0), and a todo created as completed without a
    completion instant gets the instant of the request. *)
Theorem post_todo_defaults (uid newId : ObjectId) (body : TodoBody) (now : Z)
    (coll : list Todo) (t : Todo) :
  statusCode (post_todo uid newId body now coll).1 = 201%Z →
  data (post_todo uid newId body now coll).1 = Some t →
  status t = default "pending" (b_status body) ∧
  priority t = default "medium" (b_priority body) ∧
  starred t = default false (b_starred body) ∧
  archived t = default false (b_archived body) ∧
  order t = default 0%Z (b_order body) ∧
  (status t = "completed" → b_completedAt body = None → completedAt t = Some now) ∧
  (status t ≠ "completed" → completedAt t = b_completedAt body).
Proof.
  intros H. destruct (post_todo_inv _ _ _ _ _ H) as (_ & _ & ->).
  cbn [fst data]. intros [= <-]. unfold pre_save_new.
  destruct (String.eqb_spec
              (status (new_todo newId uid (sanitize_body body) now)) "completed")
    as [Hc|Hc]; cbn [andb].
  - destruct (completedAt (new_todo newId uid (sanitize_body body) now)) eqn:Hd.
    + rewrite bool_decide_eq_false_2 by done.
      repeat split; try reflexivity; cbn in *; congruence.
    + rewrite bool_decide_eq_true_2 by done.
      repeat split; try reflexivity. intros Hs. cbn in Hs, Hc. congruence.
  - repeat split; try reflexivity. intros Hs. cbn in Hs, Hc. congruence.
Qed.

(** X14. The route of a create does not check [status]: a body that passes
    the validators and carries a status outside the allowed values is
    refused by the schema when the todo is saved, and the answer is a 500,
    with nothing stored. *)
Theorem post_todo_bad_status (uid newId : ObjectId) (body : TodoBody) (s : string)
    (now : Z) (coll : list Todo) :
  valid_create_body body = true →
  b_status body = Some s → isIn s statuses = false →
  statusCode (post_todo uid newId body now coll).1 = 500%Z ∧
  success (post_todo uid newId body now coll).1 = false ∧
  (post_todo uid newId body now coll).2 = coll.
Proof.
  intros Hv Hs Hbad. unfold post_todo. rewrite Hv. cbn [negb].
  assert (schema_valid (new_todo newId uid (sanitize_body body) now) = false) as ->;
    [|done].
  unfold schema_valid. cbn [status new_todo sanitize_body b_status].
  rewrite Hs. cbn [default from_option id].
  change (isIn s ["pending"; "in-progress"; "completed"]) with (isIn s statuses).
  rewrite Hbad. by rewrite andb_false_r.
Qed.

Lemma findOneAndDelete_None (q : gmap string clause) (coll : list Todo) :
  (findOneAndDelete q coll).1 = None → (findOneAndDelete q coll).2 = coll.
Proof.
  induction coll as [|x rest IH]; [done|]. simpl.
  destruct (selects q x); cbn [fst snd]; [done|]. intros H. by rewrite IH.
Qed.

Lemma findOneAndDelete_Some (q : gmap string clause) (coll : list Todo) (t : Todo) :
  NoDup coll → (findOneAndDelete q coll).1 = Some t →
  selects q t = true ∧ In t coll ∧ ¬ In t (findOneAndDelete q coll).2.
Proof.
  induction coll as [|x rest IH]; [done|]. simpl.
  intros [Hx Hr]%NoDup_cons. destruct (selects q x) eqn:Hsel; cbn [fst snd].
  - intros [= <-]. split; [done|]. split; [by left|].
    by intros ?%list_elem_of_In.
  - intros H. destruct (IH Hr H) as (Hs & Hin & Hout).
    split; [done|]. split; [by right|].
    intros [<- | Hin']; [congruence | done].
Qed.

Lemma unique_ids_NoDup (coll : list Todo) : unique_ids coll → NoDup coll.
Proof. unfold unique_ids. apply (NoDup_fmap_1 _id). Qed.

(** X15. Deleting. A delete answered with 200 removes the todo with that
    identifier and nothing else: no stored todo has the identifier
    afterwards, fetching it gives a 404 to everyone, and every other todo
    is still there. A delete that is not answered with 200 leaves the
    collection as it was. *)
Theorem delete_todo_removes (uid id : ObjectId) (coll : list Todo) :
  unique_ids coll →
  (statusCode (delete_todo uid id coll).1 = 200%Z →
   (∀ t, In t (delete_todo uid id coll).2 → _id t ≠ id) ∧
   (∀ v, get_todo v id (delete_todo uid id coll).2 = not_found) ∧
   (∀ t, In t coll → _id t ≠ id → In t (delete_todo uid id coll).2)) ∧
  (statusCode (delete_todo uid id coll).1 ≠ 200%Z →
   (delete_todo uid id coll).2 = coll).
Proof.
  intros Hu. unfold delete_todo.
  destruct (findOneAndDelete (own_todo id uid) coll).1 as [t0|] eqn:Hd;
    cbn [fst snd statusCode ok not_found].
  2:{ split; [done|]. intros _. by apply findOneAndDelete_None. }
  split; [|done]. intros _.
  destruct (findOneAndDelete_Some _ _ _ (unique_ids_NoDup _ Hu) Hd)
    as (Hsel & Hin & Hout).
  rewrite selects_own_todo in Hsel.
  apply andb_true_iff in Hsel as [Hid%N.eqb_eq _].
  assert (∀ t, In t (findOneAndDelete (own_todo id uid) coll).2 → _id t ≠ id)
    as Hgone.
  { intros t Ht Htid. apply Hout.
    apply findOneAndDelete_incl in Ht as Ht'.
    by rewrite <- (unique_ids_inj coll t t0 Hu Ht' Hin ltac:(congruence)). }
  split; [exact Hgone|]. split.
  - intros v. unfold get_todo, findOne.
    destruct (List.find _ _) as [x|] eqn:Hx; [|done].
    apply find_some in Hx as [Hx Hs]. rewrite selects_own_todo in Hs.
    apply andb_true_iff in Hs as [Hxid%N.eqb_eq _]. by destruct (Hgone x Hx).
  - intros t Ht Hne. apply In_findOneAndDelete; [done|].
    rewrite selects_own_todo. apply andb_false_iff. left. by apply N.eqb_neq.
Qed.

(** ** Archiving and bulk requests *)

Lemma findOneAndUpdate_Some (q : gmap string clause) (u : TodoBody) (now : Z)
    (coll : list Todo) (t' : Todo) :
  (findOneAndUpdate q u now coll).1 = Some t' →
  ∃ t, t' = apply_update u now t ∧ In t coll ∧ selects q t = true ∧
       In t' (findOneAndUpdate q u now coll).2.
Proof.
  induction coll as [|x rest IH]; [done|]. simpl.
  destruct (selects q x) eqn:Hsel; cbn [fst snd].
  - intros [= <-]. exists x. repeat split; [by left | done | by left].
  - intros H. destruct (IH H) as (t & -> & Hin & Hs & Hin').
    exists t. repeat split; [by right | done | by right].
Qed.

(** X16. Archiving hides and keeps. After an archive answered with 200, in
    a collection with unique identifiers, the todo is archived, no listing
    of any user shows it, and the owner still gets it from [GET /:id]; its
    status and its completion instant are as before. *)
Theorem patch_archive_hides (uid id : ObjectId) (now : Z) (coll : list Todo) :
  unique_ids coll →
  statusCode (patch_archive uid id now coll).1 = 200%Z →
  ∃ t t',
    findOne (own_todo id uid) coll = Some t ∧
    data (patch_archive uid id now coll).1 = Some t' ∧
    archived t' = true ∧ status t' = status t ∧ completedAt t' = completedAt t ∧
    get_todo uid id (patch_archive uid id now coll).2 = ok None (Some t') ∧
    hidden id (patch_archive uid id now coll).2 ∧
    ∀ v rq r d x,
      get_todos v rq (patch_archive uid id now coll).2 = Some r →
      data r = Some d → In x (todos d) → _id x ≠ id.
Proof.
  intros Hu. unfold patch_archive.
  pose proof (map_id_findOneAndUpdate (own_todo id uid) archive_update now coll)
    as Hids.
  destruct (findOneAndUpdate (own_todo id uid) archive_update now coll).1
    as [t'|] eqn:Hr; cbn [fst snd statusCode ok not_found data]; [|done].
  intros _.
  destruct (findOneAndUpdate_Some _ _ _ _ _ Hr) as (t & -> & Hin & Hsel & Hin').
  set (coll' := (findOneAndUpdate (own_todo id uid) archive_update now coll).2) in *.
  assert (unique_ids coll') as Hu' by (unfold unique_ids; by rewrite Hids).
  rewrite selects_own_todo in Hsel.
  apply andb_true_iff in Hsel as [Hid%N.eqb_eq Hus%N.eqb_eq].
  assert (hidden id coll') as Hh.
  { intros x Hx Hxid.
    by rewrite (unique_ids_inj coll' x (apply_update archive_update now t)
                  Hu' Hx Hin' ltac:(cbn; congruence)). }
  assert (findOne (own_todo id uid) coll = Some t) as Hf.
  { unfold findOne. destruct (List.find _ coll) as [x|] eqn:Hx.
    - apply find_some in Hx as [Hx Hs]. rewrite selects_own_todo in Hs.
      apply andb_true_iff in Hs as [Hxid%N.eqb_eq _].
      f_equal. apply (unique_ids_inj coll); congruence.
    - apply (find_none _ _ Hx) in Hin. rewrite selects_own_todo in Hin.
      by rewrite Hid, Hus, !N.eqb_refl in Hin. }
  exists t, (apply_update archive_update now t).
  split; [done|]. split; [done|]. split; [done|]. split; [done|]. split; [done|].
  split; [|split; [done|]].
  - unfold get_todo, findOne. destruct (List.find _ coll') as [x|] eqn:Hx.
    + apply find_some in Hx as [Hx Hs]. rewrite selects_own_todo in Hs.
      apply andb_true_iff in Hs as [Hxid%N.eqb_eq _].
      by rewrite (unique_ids_inj coll' x (apply_update archive_update now t)
                    Hu' Hx Hin' ltac:(cbn; congruence)).
    + apply (find_none _ _ Hx) in Hin'. rewrite selects_own_todo in Hin'.
      cbn in Hin'. by rewrite Hid, Hus, !N.eqb_refl in Hin'.
  - intros v rq r d x Hg Hd Hx Hxid.
    destruct (get_todos_lists _ _ _ _ _ _ Hg Hd Hx) as (Hc & _ & Har).
    rewrite (Hh x Hc Hxid) in Har. discriminate.
Qed.

Lemma post_bulk_update (uid : ObjectId) (act : string) (ids : list ObjectId)
    (st : option string) (now : Z) (coll : list Todo) (u : TodoBody) :
  valid_bulk_body {| action := act; todoIds := ids; bulk_status := st |} = true →
  (act = "archive" ∧ u = archive_update) ∨
  (act = "update-status" ∧ ∃ s, st = Some s ∧ u = status_update s now) →
  (post_bulk uid {| action := act; todoIds := ids; bulk_status := st |} now coll).2
  = map (λ t, if reached ids uid t then apply_update u now t else t) coll.
Proof.
  intros Hv Hact. unfold post_bulk. rewrite Hv. cbn [negb action todoIds bulk_status].
  assert (∀ u, (updateMany (own_todos ids uid) u now coll).2
               = map (λ t, if reached ids uid t then apply_update u now t else t) coll)
    as Hmap.
  { intros u'. unfold updateMany. cbn [snd]. apply map_ext. intros t.
    by rewrite selects_own_todos. }
  destruct Hact as [[-> ->] | (-> & s & -> & ->)].
  - cbn. apply Hmap.
  - unfold valid_bulk_body in Hv. rewrite !andb_true_iff in Hv.
    destruct Hv as [_ Hs]. destruct s as [|c s]; [discriminate Hs|].
    cbn. apply Hmap.
Qed.

(** X17. The bulk status update. Every listed todo of the user, and no
    other todo, gets the requested status; its completion instant becomes
    the instant of the request when the status is completed, also when it
    had one already, and is left as it was for any other status. *)
Theorem post_bulk_update_status (uid : ObjectId) (ids : list ObjectId)
    (st : string) (now : Z) (coll : list Todo) :
  valid_bulk_body {| action := "update-status"; todoIds := ids;
                     bulk_status := Some st |} = true →
  (post_bulk uid {| action := "update-status"; todoIds := ids;
                    bulk_status := Some st |} now coll).2
  = map (λ t, if reached ids uid t
              then amend t st
                     (if st =? "completed" then Some now else completedAt t)
                     (subtasks t) (comments t) now
              else t) coll.
Proof.
  intros Hv.
  rewrite (post_bulk_update uid "update-status" ids (Some st) now coll
             (status_update st now) Hv) by (right; eauto).
  apply map_ext. intros t. destruct (reached ids uid t); [|done].
  unfold apply_update, amend, status_update. cbn.
  by destruct (st =? "completed").
Qed.

(** X18. The bulk archive. Afterwards no listing of the user shows a todo
    with one of the given identifiers, and every todo that is not a listed
    todo of the user is unchanged. *)
Theorem post_bulk_archive_hides (uid : ObjectId) (ids : list ObjectId)
    (st : option string) (now : Z) (coll : list Todo) :
  valid_bulk_body {| action := "archive"; todoIds := ids; bulk_status := st |} = true →
  (∀ rq r d x,
     get_todos uid rq
       (post_bulk uid {| action := "archive"; todoIds := ids; bulk_status := st |}
                  now coll).2 = Some r →
     data r = Some d → In x (todos d) → ¬ In (_id x) ids) ∧
  (∀ t, In t coll → reached ids uid t = false →
        In t (post_bulk uid {| action := "archive"; todoIds := ids;
                               bulk_status := st |} now coll).2).
Proof.
  intros Hv.
  rewrite (post_bulk_update uid "archive" ids st now coll archive_update Hv)
    by (left; done).
  split.
  - intros rq r d x Hg Hd Hx Hids.
    destruct (get_todos_lists _ _ _ _ _ _ Hg Hd Hx) as (Hc & Hux & Har).
    apply in_map_iff in Hc as (t & Ht & _).
    destruct (reached ids uid t) eqn:Hr.
    + subst x. cbn in Har. discriminate.
    + subst x. unfold reached in Hr. rewrite Hux, N.eqb_refl, andb_true_r in Hr.
      assert (existsb (N.eqb (_id t)) ids = true) as Hc; [|congruence].
      apply existsb_exists. exists (_id t). split; [done | apply N.eqb_refl].
  - intros t Hin Hr. apply in_map_iff. exists t. by rewrite Hr.
Qed.

(** X19. The bulk delete. Afterwards the user can fetch none of the given
    identifiers, every todo that is not a listed todo of the user is still
    there, and the reported count is the number of todos that went away. *)
Theorem post_bulk_delete_removes (uid : ObjectId) (ids : list ObjectId)
    (st : option string) (now : Z) (coll : list Todo) :
  valid_bulk_body {| action := "delete"; todoIds := ids; bulk_status := st |} = true →
  (∀ i, In i ids →
        get_todo uid i
          (post_bulk uid {| action := "delete"; todoIds := ids; bulk_status := st |}
                     now coll).2 = not_found) ∧
  (∀ t, In t coll → reached ids uid t = false →
        In t (post_bulk uid {| action := "delete"; todoIds := ids;
                               bulk_status := st |} now coll).2) ∧
  (reported_modifiedCount <$>
     data (post_bulk uid {| action := "delete"; todoIds := ids; bulk_status := st |}
                     now coll).1)
  = Some (VNum (Z.of_nat (length coll) -
                Z.of_nat (length (post_bulk uid {| action := "delete"; todoIds := ids;
                                                   bulk_status := st |} now coll).2))).
Proof.
  intros Hv. rewrite (post_bulk_delete uid ids st now coll Hv).
  cbn [fst snd data ok fmap option_fmap option_map reported_modifiedCount].
  cbv zeta. unfold reached.
  split; [|split].
  - intros i Hi. unfold get_todo, findOne.
    destruct (List.find _ _) as [x|] eqn:Hx; [|done].
    apply find_some in Hx as [[Hx Hnr]%filter_In Hs].
    rewrite selects_own_todo in Hs.
    apply andb_true_iff in Hs as [Hxid%N.eqb_eq Hxu].
    apply negb_true_iff in Hnr. rewrite Hxu, andb_true_r in Hnr.
    assert (existsb (N.eqb (_id x)) ids = true) as Hc; [|congruence].
    apply existsb_exists. exists i. split; [done | by apply N.eqb_eq].
  - intros t Hin Hr. apply filter_In. by rewrite Hr.
  - do 2 f_equal.
    induction coll as [|x l IH]; [done|]. cbn [List.filter length].
    destruct (existsb (N.eqb (_id x)) ids && (user x =? uid)%N);
      cbn [negb length]; lia.
Qed.

(** ** Writing, then reading *)

Lemma findOne_of_id (v id : ObjectId) (coll : list Todo) (t : Todo) :
  unique_ids coll → In t coll → _id t = id →
  findOne (own_todo id v) coll = if (user t =? v)%N then Some t else None.
Proof.
  intros Hu Hin Hid. unfold findOne.
  destruct (List.find _ coll) as [x|] eqn:Hx.
  - apply find_some in Hx as [Hx Hs]. rewrite selects_own_todo in Hs.
    apply andb_true_iff in Hs as [Hxid%N.eqb_eq Hxu].
    rewrite (unique_ids_inj coll x t Hu Hx Hin ltac:(congruence)) in *.
    by rewrite Hxu.
  - apply (find_none _ _ Hx) in Hin. rewrite selects_own_todo in Hin.
    rewrite Hid, N.eqb_refl in Hin. cbn in Hin. by rewrite Hin.
Qed.

Lemma In_replace_doc_self (d t : Todo) (coll : list Todo) :
  In t coll → _id t = _id d → In d (replace_doc d coll).
Proof.
  intros Hin Hid. apply in_map_iff. exists t. by rewrite Hid, N.eqb_refl.
Qed.

(** After the save of a changed copy of a stored todo, the todo that is
    found under its identifier is the saved one. *)
Lemma findOne_save (uid id : ObjectId) (t doc : Todo) (now : Z) (coll : list Todo) :
  unique_ids coll → findOne (own_todo id uid) coll = Some t →
  _id doc = _id t → user doc = user t →
  findOne (own_todo id uid) (save t doc now coll).2 = Some (save t doc now coll).1.
Proof.
  intros Hu Hf Hid Hus.
  apply findOne_own_todo in Hf as (Hin & Htid & Htu).
  destruct (save_keeps t doc now coll) as [Hsid _].
  assert (user (save t doc now coll).1 = uid) as Hsu.
  { unfold save, pre_save. cbn [fst]. destruct (_ && _); cbn; by rewrite Hus. }
  rewrite (findOne_of_id uid id _ (save t doc now coll).1).
  - by rewrite Hsu, N.eqb_refl.
  - by apply unique_ids_save.
  - unfold save. cbn [snd]. apply (In_replace_doc_self _ t); [done|].
    rewrite <- Hid. symmetry. exact Hsid.
  - rewrite Hsid, Hid. exact Htid.
Qed.

(** X20. What a write returns is what is stored. After a toggle, an added
    subtask, a toggled subtask or an added comment answered with 200, in a
    collection with unique identifiers, [GET /:id] gives the requester
    exactly the todo that the write returned. *)
Theorem write_then_get (uid id : ObjectId) (now : Z) (coll : list Todo) :
  unique_ids coll →
  (statusCode (patch_toggle uid id now coll).1 = 200%Z →
   get_todo uid id (patch_toggle uid id now coll).2
   = ok None (data (patch_toggle uid id now coll).1)) ∧
  (∀ newId body,
     statusCode (post_subtask uid id newId body now coll).1 = 200%Z →
     get_todo uid id (post_subtask uid id newId body now coll).2
     = ok None (data (post_subtask uid id newId body now coll).1)) ∧
  (∀ sid,
     statusCode (patch_subtask uid id sid now coll).1 = 200%Z →
     get_todo uid id (patch_subtask uid id sid now coll).2
     = ok None (data (patch_subtask uid id sid now coll).1)) ∧
  (∀ body,
     statusCode (post_comment uid id body now coll).1 = 200%Z →
     get_todo uid id (post_comment uid id body now coll).2
     = ok None (data (post_comment uid id body now coll).1)).
Proof.
  intros Hu. repeat split.
  - unfold patch_toggle.
    destruct (findOne (own_todo id uid) coll) as [t|] eqn:Hf; [|done].
    intros _. cbn [fst snd data ok]. unfold get_todo, toggleStatus.
    rewrite (findOne_save uid id) by (done || by destruct (status t =? "completed")).
    reflexivity.
  - intros newId body. unfold post_subtask. destruct (negb _); [done|].
    destruct (findOne (own_todo id uid) coll) as [t|] eqn:Hf; [|done].
    intros _. cbn [fst snd data ok]. unfold get_todo, addSubtask.
    by rewrite (findOne_save uid id).
  - intros sid. unfold patch_subtask.
    destruct (findOne (own_todo id uid) coll) as [t|] eqn:Hf; [|done].
    unfold toggleSubtask. destruct (subtask_by_id sid (subtasks t)); [|done].
    intros _. cbn [fst snd data ok]. unfold get_todo.
    by rewrite (findOne_save uid id).
  - intros body. unfold post_comment. destruct (negb _); [done|].
    destruct (findOne (own_todo id uid) coll) as [t|] eqn:Hf; [|done].
    intros _. cbn [fst snd data ok]. unfold get_todo, addComment.
    by rewrite (findOne_save uid id).
Qed.

Lemma toggleStatus_doc (t : Todo) (now : Z) (coll : list Todo) :
  (toggleStatus t now coll).1
  = set_updatedAt now
      (if status t =? "completed"
       then set_completedAt None (set_status "pending" t)
       else set_completedAt (Some now) (set_status "completed" t)).
Proof.
  unfold toggleStatus, save. cbn [fst]. f_equal.
  destruct (status t =? "completed").
  - by apply pre_save_not_completed.
  - by apply pre_save_stamped.
Qed.

(** X21. Toggling twice. After two toggles of a stored todo, a todo that
    was completed is completed again, with the instant of the second toggle
    as its completion instant, and any other todo, one in progress
    included, is pending without a completion instant. *)
Theorem patch_toggle_twice (uid id : ObjectId) (now now' : Z)
    (coll : list Todo) (t : Todo) :
  unique_ids coll → findOne (own_todo id uid) coll = Some t →
  ∃ t2,
    findOne (own_todo id uid)
      (patch_toggle uid id now' (patch_toggle uid id now coll).2).2 = Some t2 ∧
    (status t = "completed" →
     status t2 = "completed" ∧ completedAt t2 = Some now') ∧
    (status t ≠ "completed" →
     status t2 = "pending" ∧ completedAt t2 = None) ∧
    title t2 = title t ∧ subtasks t2 = subtasks t ∧ archived t2 = archived t.
Proof.
  intros Hu Hf. unfold patch_toggle at 2. rewrite Hf. cbn [snd].
  set (r1 := toggleStatus t now coll).
  assert (findOne (own_todo id uid) r1.2 = Some r1.1) as Hf1.
  { subst r1. unfold toggleStatus.
    apply findOne_save; try done; by destruct (status t =? "completed"). }
  assert (unique_ids r1.2) as Hu1 by (subst r1; by apply unique_ids_save).
  unfold patch_toggle. rewrite Hf1. cbn [snd].
  exists (toggleStatus r1.1 now' r1.2).1. split.
  { unfold toggleStatus.
    apply findOne_save; try done; by destruct (status r1.1 =? "completed"). }
  subst r1. rewrite !toggleStatus_doc.
  destruct (String.eqb_spec (status t) "completed") as [He|Hne]; cbn.
  - split; [intros _; split; reflexivity|].
    split; [intros Hc; contradiction|]. repeat split; reflexivity.
  - split; [intros Hc; contradiction|].
    split; [intros _; split; reflexivity|]. repeat split; reflexivity.
Qed.

(** ** Subtasks *)

Lemma flip_completed_involutive (s : Subtask) : flip_completed (flip_completed s) = s.
Proof. destruct s. unfold flip_completed. cbn. by rewrite negb_involutive. Qed.

Lemma flip_subtask_involutive (sid : ObjectId) (subs : list Subtask) :
  flip_subtask sid (flip_subtask sid subs) = subs.
Proof.
  induction subs as [|s r IH]; [done|]. simpl.
  destruct (st_id s =? sid)%N eqn:Hs; simpl.
  - by rewrite Hs, flip_completed_involutive.
  - by rewrite Hs, IH.
Qed.

Lemma subtask_by_id_flip (sid : ObjectId) (subs : list Subtask) :
  subtask_by_id sid (flip_subtask sid subs)
  = flip_completed <$> subtask_by_id sid subs.
Proof.
  unfold subtask_by_id. induction subs as [|s r IH]; [done|]. simpl.
  destruct (st_id s =? sid)%N eqn:Hs; simpl; by rewrite Hs.
Qed.

(** The subtask that is flipped is the first one with the identifier, and
    it is replaced where it stands. *)
Lemma flip_subtask_insert (sid : ObjectId) (subs : list Subtask) (s : Subtask) :
  subtask_by_id sid subs = Some s →
  ∃ i : nat,
    subs !! i = Some s ∧ st_id s = sid ∧
    (∀ (j : nat) s', (j < i)%nat → subs !! j = Some s' → st_id s' ≠ sid) ∧
    flip_subtask sid subs = <[i := flip_completed s]> subs.
Proof.
  unfold subtask_by_id. induction subs as [|x r IH]; [done|]. simpl.
  destruct (N.eqb_spec (st_id x) sid) as [Hx|Hx].
  - intros [= <-]. exists 0%nat. repeat split; try done. intros j s' Hj. lia.
  - intros H. destruct (IH H) as (i & Hi & Hs & Hfirst & Hflip).
    exists (S i). repeat split; try done.
    + intros [|j] s' Hj Hl; simpl in Hl.
      * by injection Hl as <-.
      * apply (Hfirst j); [lia | done].
    + simpl. by rewrite Hflip.
Qed.

Lemma pre_save_same_status (orig doc : Todo) (now : Z) :
  status doc = status orig → pre_save orig doc now = doc.
Proof. intros H. unfold pre_save. by rewrite H, String.eqb_refl. Qed.

Lemma toggleSubtask_doc (t : Todo) (sid : ObjectId) (now : Z) (coll : list Todo)
    (s : Subtask) :
  subtask_by_id sid (subtasks t) = Some s →
  toggleSubtask t sid now coll
  = inr (set_updatedAt now (set_subtasks (flip_subtask sid (subtasks t)) t),
         replace_doc (set_updatedAt now
                        (set_subtasks (flip_subtask sid (subtasks t)) t)) coll).
Proof.
  intros Hs. unfold toggleSubtask, save. rewrite Hs.
  by rewrite pre_save_same_status.
Qed.

(** X22. Toggling a subtask of a stored todo flips the [completed] flag of
    the first subtask that has the identifier, where it stands, and changes
    no other subtask and no other field of the todo but [updatedAt]. *)
Theorem patch_subtask_flips (uid id sid : ObjectId) (now : Z) (coll : list Todo)
    (t : Todo) (s : Subtask) :
  findOne (own_todo id uid) coll = Some t →
  subtask_by_id sid (subtasks t) = Some s →
  ∃ (i : nat) t',
    patch_subtask uid id sid now coll
      = (ok (Some "Subtask toggled successfully") (Some t'), replace_doc t' coll) ∧
    subtasks t !! i = Some s ∧
    (∀ (j : nat) s', (j < i)%nat → subtasks t !! j = Some s' → st_id s' ≠ sid) ∧
    t' = amend t (status t) (completedAt t)
               (<[i := flip_completed s]> (subtasks t)) (comments t) now.
Proof.
  intros Hf Hs.
  destruct (flip_subtask_insert sid (subtasks t) s Hs) as (i & Hi & _ & Hfirst & Hflip).
  exists i. eexists. unfold patch_subtask. rewrite Hf, (toggleSubtask_doc _ _ _ _ s Hs).
  cbn [fst snd]. split; [reflexivity|]. split; [done|]. split; [done|].
  by rewrite Hflip.
Qed.

(** X23. Toggling the same subtask twice restores the subtasks of the
    todo, and leaves its status and its completion instant as they were. *)
Theorem patch_subtask_twice (uid id sid : ObjectId) (now now' : Z)
    (coll : list Todo) (t : Todo) (s : Subtask) :
  unique_ids coll →
  findOne (own_todo id uid) coll = Some t →
  subtask_by_id sid (subtasks t) = Some s →
  ∃ t2,
    findOne (own_todo id uid)
      (patch_subtask uid id sid now' (patch_subtask uid id sid now coll).2).2
      = Some t2 ∧
    subtasks t2 = subtasks t ∧ status t2 = status t ∧
    completedAt t2 = completedAt t ∧ updatedAt t2 = now'.
Proof.
  intros Hu Hf Hs.
  pose proof (findOne_save uid id t (set_subtasks (flip_subtask sid (subtasks t)) t)
                now coll Hu Hf eq_refl eq_refl) as Hf1.
  pose proof (unique_ids_save t (set_subtasks (flip_subtask sid (subtasks t)) t)
                now coll Hu) as Hu1.
  unfold patch_subtask at 2. rewrite Hf, (toggleSubtask_doc _ _ _ _ s Hs).
  cbn [snd].
  unfold save in Hf1, Hu1. cbn [fst snd] in Hf1, Hu1.
  rewrite pre_save_same_status in Hf1, Hu1 by reflexivity.
  set (t1 := set_updatedAt now (set_subtasks (flip_subtask sid (subtasks t)) t)) in *.
  assert (subtask_by_id sid (subtasks t1) = Some (flip_completed s)) as Hs1.
  { subst t1. cbn [subtasks set_updatedAt set_subtasks amend].
    by rewrite subtask_by_id_flip, Hs. }
  pose proof (findOne_save uid id t1 (set_subtasks (flip_subtask sid (subtasks t1)) t1)
                now' _ Hu1 Hf1 eq_refl eq_refl) as Hf2.
  unfold patch_subtask. rewrite Hf1, (toggleSubtask_doc _ _ _ _ _ Hs1). cbn [snd].
  unfold save in Hf2. cbn [fst snd] in Hf2.
  rewrite pre_save_same_status in Hf2 by reflexivity.
  eexists. split; [exact Hf2|].
  subst t1. cbn [subtasks status completedAt updatedAt set_updatedAt set_subtasks amend].
  by rewrite flip_subtask_involutive.
Qed.

Lemma subtask_by_id_app_last (subs : list Subtask) (s : Subtask) :
  ∃ s', subtask_by_id (st_id s) (subs ++ [s]) = Some s' ∧
        (subtask_by_id (st_id s) subs = None → s' = s).
Proof.
  unfold subtask_by_id. induction subs as [|x r IH]; simpl.
  - rewrite N.eqb_refl. by exists s.
  - destruct (st_id x =? st_id s)%N; [by exists x | exact IH].
Qed.

Lemma flip_subtask_app_last (subs : list Subtask) (s : Subtask) :
  subtask_by_id (st_id s) subs = None →
  flip_subtask (st_id s) (subs ++ [s]) = (subs ++ [flip_completed s])%list.
Proof.
  unfold subtask_by_id. induction subs as [|x r IH]; simpl.
  - by rewrite N.eqb_refl.
  - destruct (st_id x =? st_id s)%N; [done|]. intros H. by rewrite IH.
Qed.

(** X24. Adding a subtask. For a title of ASCII text that passes the
    validators, a subtask added to a stored todo comes last and keeps the
    ones before it. It carries the trimmed title and what the body names of
    [_id], [completed] and [createdAt]: the handler pushes the body as it
    is, and only what the body leaves out gets the generated identifier,
    [false] and the instant of the request. Toggling the identifier of the
    new subtask then succeeds, and flips the new subtask when no earlier
    subtask of the todo has that identifier. *)
Theorem post_subtask_appends (uid id newId : ObjectId) (body : SubtaskBody)
    (ttl : string) (now now' : Z) (coll : list Todo) (t : Todo) :
  unique_ids coll →
  findOne (own_todo id uid) coll = Some t →
  sb_title body = Some ttl → ascii_text ttl = true →
  valid_title 1 200 (Some ttl) = true →
  ∃ t1 sub,
    sub = {| st_id := default newId (sb_id body);
             st_title := trim ttl;
             st_completed := default false (sb_completed body);
             st_createdAt := default now (sb_createdAt body) |} ∧
    statusCode (post_subtask uid id newId body now coll).1 = 200%Z ∧
    findOne (own_todo id uid) (post_subtask uid id newId body now coll).2 = Some t1 ∧
    subtasks t1 = (subtasks t ++ [sub])%list ∧
    statusCode (patch_subtask uid id (st_id sub) now'
                  (post_subtask uid id newId body now coll).2).1 = 200%Z ∧
    (subtask_by_id (st_id sub) (subtasks t) = None →
     ∃ t2, data (patch_subtask uid id (st_id sub) now'
                   (post_subtask uid id newId body now coll).2).1 = Some t2 ∧
           subtasks t2 = (subtasks t ++ [flip_completed sub])%list).
Proof.
  intros Hu Hf Ht _ Hv. unfold post_subtask. rewrite Ht, Hv, Hf. cbn [negb fst snd].
  set (sub := {| st_id := default newId (sb_id body); st_title := trim ttl;
                 st_completed := default false (sb_completed body);
                 st_createdAt := default now (sb_createdAt body) |}).
  change (trim (default "" (Some ttl))) with (trim ttl). fold sub.
  unfold addSubtask.
  pose proof (findOne_save uid id t (set_subtasks (subtasks t ++ [sub]) t)
                now coll Hu Hf eq_refl eq_refl) as Hf1.
  unfold save in *. cbn [fst snd] in *.
  rewrite pre_save_same_status in * by reflexivity.
  eexists. exists sub. split; [reflexivity|]. split; [reflexivity|].
  split; [exact Hf1|]. split; [reflexivity|].
  destruct (subtask_by_id_app_last (subtasks t) sub) as (s' & Hs' & Hnew).
  unfold patch_subtask. rewrite Hf1.
  erewrite toggleSubtask_doc by (cbn [subtasks set_updatedAt set_subtasks amend];
                                 exact Hs').
  split; [reflexivity|]. intros Hn. eexists. split; [reflexivity|].
  cbn [subtasks set_updatedAt set_subtasks amend fst].
  apply flip_subtask_app_last. exact Hn.
Qed.

(** ** Fetching, titles, owners, comments *)

(** X25. [GET /:id] gives a todo only to its owner: a todo it returns is
    stored, has the identifier and belongs to the requester, and the answer
    is 404 exactly when the requester owns no stored todo with the
    identifier; whether the todo is archived plays no part. *)
Theorem get_todo_own (uid id : ObjectId) (coll : list Todo) :
  (∀ t, data (get_todo uid id coll) = Some t →
        In t coll ∧ _id t = id ∧ user t = uid) ∧
  (get_todo uid id coll = not_found ↔
   ∀ t, In t coll → _id t = id → user t ≠ uid).
Proof.
  unfold get_todo. destruct (findOne (own_todo id uid) coll) as [t0|] eqn:Hf.
  - split.
    + intros t [= <-]. by apply findOne_own_todo.
    + split; [done|]. intros H.
      apply findOne_own_todo in Hf as (Hin & Hid & Hu). by destruct (H t0 Hin Hid).
  - split; [done|]. split; [|done]. intros _ t Hin Hid Hu.
    unfold findOne in Hf. apply (find_none _ _ Hf) in Hin.
    rewrite selects_own_todo, Hid, Hu, !N.eqb_refl in Hin. discriminate.
Qed.

Lemma length_in_blank (hi : nat) (s : string) :
  trim s = "" → length_in 1 hi (trim s) = false.
Proof. intros ->. reflexivity. Qed.

(** X26. A title or a comment that is blank once trimmed is a validation
    failure: creating a todo, renaming one, adding a subtask and adding a
    comment all answer 400 and store nothing. *)
Theorem blank_text_rejected (uid id newId : ObjectId) (s : string)
    (body : TodoBody) (sbody : SubtaskBody) (cbody : CommentBody) (now : Z)
    (coll : list Todo) :
  trim s = "" →
  (b_title body = Some s →
   post_todo uid newId body now coll = (validation_failed, coll) ∧
   put_todo uid id body now coll = (validation_failed, coll)) ∧
  (sb_title sbody = Some s →
   post_subtask uid id newId sbody now coll = (validation_failed, coll)) ∧
  (cb_text cbody = Some s →
   post_comment uid id cbody now coll = (validation_failed, coll)).
Proof.
  intros Hs. pose proof (length_in_blank 200 s Hs) as H200.
  pose proof (length_in_blank 500 s Hs) as H500.
  split; [|split].
  - intros Hb. unfold post_todo, put_todo, valid_create_body, valid_update_body.
    rewrite Hb. cbn [optional]. rewrite H200, andb_false_r. done.
  - intros Hb. unfold post_subtask, valid_title. rewrite Hb, H200, andb_false_r. done.
  - intros Hb. unfold post_comment, valid_title. rewrite Hb, H500, andb_false_r. done.
Qed.

Lemma findOneAndUpdate_found (q : gmap string clause) (u : TodoBody) (now : Z)
    (coll : list Todo) (t : Todo) :
  findOne q coll = Some t →
  (findOneAndUpdate q u now coll).1 = Some (apply_update u now t) ∧
  In (apply_update u now t) (findOneAndUpdate q u now coll).2.
Proof.
  unfold findOne. induction coll as [|x rest IH]; [done|]. simpl.
  destruct (selects q x); cbn [fst snd].
  - intros [= <-]. split; [done | by left].
  - intros H. destruct (IH H). split; [done | by right].
Qed.

(** X27. The update passes the whole body on, the owner included. When a
    user updates a stored todo of theirs with a body that names another
    user as [user], the update is answered with 200, the requester gets a
    404 for the todo from then on, and the named user gets the todo. *)
Theorem put_todo_changes_owner (uid v id : ObjectId) (body : TodoBody) (now : Z)
    (coll : list Todo) (t : Todo) :
  unique_ids coll →
  findOne (own_todo id uid) coll = Some t →
  valid_update_body body = true →
  b_user body = Some v → v ≠ uid →
  statusCode (put_todo uid id body now coll).1 = 200%Z ∧
  get_todo uid id (put_todo uid id body now coll).2 = not_found ∧
  ∃ t', get_todo v id (put_todo uid id body now coll).2 = ok None (Some t') ∧
        user t' = v ∧ _id t' = id.
Proof.
  intros Hu Hf Hv Hb Hne. unfold put_todo. rewrite Hv. cbn [negb].
  destruct (findOneAndUpdate_found _ (sanitize_body body) now _ _ Hf) as [Hr Hin].
  rewrite Hr. cbn [fst snd statusCode ok].
  set (coll' := (findOneAndUpdate (own_todo id uid) (sanitize_body body) now coll).2)
    in *.
  set (t' := apply_update (sanitize_body body) now t) in *.
  assert (unique_ids coll') as Hu'
    by (unfold unique_ids; subst coll'; by rewrite map_id_findOneAndUpdate).
  apply findOne_own_todo in Hf as (_ & Hid & _).
  assert (_id t' = id) as Hid' by done.
  assert (user t' = v) as Hus' by (subst t'; cbn; by rewrite Hb).
  split; [done|]. unfold get_todo.
  rewrite !(findOne_of_id _ id coll' t' Hu' Hin Hid'), Hus'.
  apply N.eqb_neq in Hne. rewrite Hne, N.eqb_refl.
  split; [done|]. by exists t'.
Qed.

(** X28. Adding a comment. For a text of ASCII characters that passes the
    validators, a comment added to a stored todo comes last, after the
    comments that were there, with the trimmed text and the requester as
    its author; its [createdAt] is the one the body names, and the instant
    of the request when the body names none. The status, the completion
    instant and the subtasks of the todo stay as they are. *)
Theorem post_comment_appends (uid id : ObjectId) (body : CommentBody)
    (text : string) (now : Z) (coll : list Todo) (t : Todo) :
  unique_ids coll →
  findOne (own_todo id uid) coll = Some t →
  cb_text body = Some text → ascii_text text = true →
  valid_title 1 500 (Some text) = true →
  ∃ t1,
    statusCode (post_comment uid id body now coll).1 = 200%Z ∧
    findOne (own_todo id uid) (post_comment uid id body now coll).2 = Some t1 ∧
    comments t1 =
      (comments t ++ [{| cm_text := trim text; cm_user := uid;
                         cm_createdAt := default now (cb_createdAt body) |}])%list ∧
    status t1 = status t ∧ completedAt t1 = completedAt t ∧
    subtasks t1 = subtasks t.
Proof.
  intros Hu Hf Ht _ Hv. unfold post_comment. rewrite Ht, Hv, Hf. cbn [negb fst snd].
  unfold addComment.
  pose proof (findOne_save uid id t
                (set_comments
                   (comments t ++ [{| cm_text := trim text; cm_user := uid;
                                      cm_createdAt := default now (cb_createdAt body) |}])
                   t)
                now coll Hu Hf eq_refl eq_refl) as Hf1.
  unfold save in *. cbn [fst snd] in *.
  rewrite pre_save_same_status in * by reflexivity.
  eexists. split; [reflexivity|]. split; [exact Hf1|]. done.
Qed.

(** ** The properties at sample data *)

Lemma get_todos_filters_witness :
  List.Forall (λ t, category t = Some "work") filed.
Proof.
  apply List.Forall_forall. intros t Hin.
  destruct (get_todos_filters 7 in_work filed (ok None (Some page_filed)) page_filed t)
    as (_ & _ & Hcategory & _).
  - by_evaluation.
  - reflexivity.
  - exact Hin.
  - destruct Hcategory as (c & Hc & ->); [reflexivity|].
    injection Hc as <-. reflexivity.
Defined.

Lemma get_todos_past_last_page_witness : todos page_five = [].
Proof.
  apply (get_todos_past_last_page 7 (at_page 5 everything) two_todos
           (ok None (Some page_five)) page_five).
  - by_evaluation.
  - reflexivity.
  - vm_compute. reflexivity.
Defined.

Lemma get_todos_reaches_witness :
  ∃ p r' d',
    (1 ≤ p)%Z ∧
    get_todos 7 (at_page p everything) after_create = Some r' ∧
    data r' = Some d' ∧
    In (sample 1 7 "Write report" "pending") (todos d').
Proof.
  destruct (get_todos_reaches 7 everything after_create
              (ok None (Some page_after_create)) page_after_create after_create
              (sample 1 7 "Write report" "pending")) as [_ Hpage].
  - by_evaluation.
  - reflexivity.
  - by_evaluation.
  - intros a b Ha Hb Ho Hc. vm_compute in Ha, Hb.
    destruct Ha as [<- | [<- | []]], Hb as [<- | [<- | []]];
      first [reflexivity | discriminate Hc].
  - left. reflexivity.
  - by_evaluation.
  - exact Hpage.
Defined.

Lemma get_stats_counts_witness :
  data (get_stats no_format no_parse 7 0 others_todo) = Some no_stats.
Proof.
  apply (get_stats_counts no_format no_parse 7 0 others_todo).
  intros t [<- | []] Hu. discriminate Hu.
Defined.

Lemma get_stats_partition_witness :
  (stats_total stats_of_two
   = stats_completed stats_of_two + stats_pending stats_of_two
     + stats_inProgress stats_of_two)%Z.
Proof.
  apply (get_stats_partition no_format no_parse 7 0 two_todos stats_of_two).
  - intros t [<- | [<- | []]] _; reflexivity.
  - by_evaluation.
Defined.

Lemma serve_unique_ids_witness :
  unique_ids (serve 7 1 (PostTodo 5 plan_trip) two_todos).
Proof.
  apply (serve_unique_ids 7 1 (PostTodo 5 plan_trip) two_todos).
  unique_by_evaluation.
Defined.

Lemma serve_leaves_others_witness :
  In (sample 1 8 "Water plants" "pending") (serve 7 1 (PostBulk delete_1) others_todo).
Proof.
  apply (serve_leaves_others 7 1 (PostBulk delete_1) others_todo).
  - unique_by_evaluation.
  - left. reflexivity.
  - discriminate.
Defined.

Lemma post_todo_then_get_witness :
  ∃ t, data (post_todo 7 5 plan_trip 0 one_pending).1 = Some t ∧
       get_todo 7 5 (post_todo 7 5 plan_trip 0 one_pending).2 = ok None (Some t) ∧
       user t = 7%N.
Proof.
  destruct (post_todo_then_get 7 5 plan_trip 0 one_pending)
    as (t & Hd & Hg & _ & _ & Hu).
  - by_evaluation.
  - exists t. split; [exact Hd|]. split; [exact Hg | exact Hu].
Defined.

Lemma post_todo_defaults_witness :
  status (sample 5 7 "Plan trip" "pending") = default "pending" (b_status plan_trip).
Proof.
  apply (post_todo_defaults 7 5 plan_trip 0 one_pending
           (sample 5 7 "Plan trip" "pending")).
  - by_evaluation.
  - by_evaluation.
Defined.

Lemma post_todo_bad_status_witness :
  statusCode (post_todo 7 5 plan_trip_done 0 one_pending).1 = 500%Z.
Proof.
  apply (post_todo_bad_status 7 5 plan_trip_done "done" 0 one_pending);
    reflexivity.
Defined.

Lemma delete_todo_removes_witness :
  get_todo 7 1 (delete_todo 7 1 one_pending).2 = not_found.
Proof.
  destruct (delete_todo_removes 7 1 one_pending) as [Hgone _].
  - unique_by_evaluation.
  - destruct Hgone as (_ & Hget & _); [by_evaluation | exact (Hget 7%N)].
Defined.

Lemma patch_archive_hides_witness :
  ∃ t', data (patch_archive 7 1 3 one_pending).1 = Some t' ∧ archived t' = true ∧
        hidden 1 (patch_archive 7 1 3 one_pending).2.
Proof.
  destruct (patch_archive_hides 7 1 3 one_pending)
    as (t & t' & _ & Hd & Ha & _ & _ & _ & Hh & _).
  - unique_by_evaluation.
  - reflexivity.
  - exists t'. split; [exact Hd|]. split; [exact Ha | exact Hh].
Defined.

Lemma post_bulk_update_status_witness :
  (post_bulk 7 complete_in_bulk 3 one_pending).2
  = map (λ t, if reached [1%N] 7 t
              then amend t "completed"
                     (if "completed" =? "completed" then Some 3%Z else completedAt t)
                     (subtasks t) (comments t) 3
              else t) one_pending.
Proof.
  apply (post_bulk_update_status 7 [1%N] "completed" 3 one_pending). reflexivity.
Defined.

Lemma post_bulk_archive_hides_witness :
  In (sample 1 8 "Water plants" "pending") (post_bulk 7 archive_1 3 others_todo).2.
Proof.
  apply (post_bulk_archive_hides 7 [1%N] None 3 others_todo).
  - reflexivity.
  - left. reflexivity.
  - reflexivity.
Defined.

Lemma post_bulk_delete_removes_witness :
  get_todo 7 1 (post_bulk 7 delete_1 3 one_pending).2 = not_found.
Proof.
  destruct (post_bulk_delete_removes 7 [1%N] None 3 one_pending) as (Hget & _).
  - by_evaluation.
  - apply (Hget 1%N). left. reflexivity.
Defined.

Lemma write_then_get_witness :
  get_todo 7 1 (patch_toggle 7 1 3 one_pending).2
  = ok None (data (patch_toggle 7 1 3 one_pending).1).
Proof.
  apply (write_then_get 7 1 3 one_pending).
  - unique_by_evaluation.
  - reflexivity.
Defined.

Lemma patch_toggle_twice_witness :
  ∃ t2,
    findOne (own_todo 1 7)
      (patch_toggle 7 1 4 (patch_toggle 7 1 3 one_pending).2).2 = Some t2 ∧
    status t2 = "pending" ∧ completedAt t2 = None.
Proof.
  destruct (patch_toggle_twice 7 1 3 4 one_pending (sample 1 7 "Write report" "pending"))
    as (t2 & Hf & _ & Hp & _).
  - unique_by_evaluation.
  - by_evaluation.
  - exists t2. split; [exact Hf|]. apply Hp. discriminate.
Defined.

Lemma patch_subtask_flips_witness :
  ∃ (i : nat) t',
    (patch_subtask 7 1 10 3 with_subtask).2 = replace_doc t' with_subtask ∧
    subtasks t' = <[i := flip_completed draft]> [draft].
Proof.
  destruct (patch_subtask_flips 7 1 10 3 with_subtask
              (set_subtasks [draft] (sample 1 7 "Write report" "pending")) draft)
    as (i & t' & Hr & _ & _ & Ht).
  - by_evaluation.
  - by_evaluation.
  - exists i, t'. split; [by rewrite Hr | by rewrite Ht].
Defined.

Lemma patch_subtask_twice_witness :
  ∃ t2,
    findOne (own_todo 1 7)
      (patch_subtask 7 1 10 4 (patch_subtask 7 1 10 3 with_subtask).2).2 = Some t2 ∧
    subtasks t2 = [draft].
Proof.
  destruct (patch_subtask_twice 7 1 10 3 4 with_subtask
              (set_subtasks [draft] (sample 1 7 "Write report" "pending")) draft)
    as (t2 & Hf & Hs & _).
  - unique_by_evaluation.
  - by_evaluation.
  - by_evaluation.
  - exists t2. split; [exact Hf | exact Hs].
Defined.

Lemma post_subtask_appends_witness :
  ∃ t1,
    findOne (own_todo 1 7) (post_subtask 7 1 11 backdated_review 3 with_subtask).2
      = Some t1 ∧
    subtasks t1 = [draft; {| st_id := 12%N; st_title := "Review";
                             st_completed := false; st_createdAt := 1%Z |}].
Proof.
  destruct (post_subtask_appends 7 1 11 backdated_review "Review" 3 4 with_subtask
              (set_subtasks [draft] (sample 1 7 "Write report" "pending")))
    as (t1 & sub & Hsub & _ & Hf & Hs & _).
  - unique_by_evaluation.
  - by_evaluation.
  - reflexivity.
  - reflexivity.
  - by_evaluation.
  - exists t1. split; [exact Hf|]. rewrite Hs, Hsub. reflexivity.
Defined.

Lemma get_todo_own_witness : get_todo 7 1 others_todo = not_found.
Proof.
  apply (get_todo_own 7 1 others_todo).
  intros t [<- | []] _. discriminate.
Defined.

Lemma blank_text_rejected_witness :
  post_comment 7 1 blank_comment 3 one_pending = (validation_failed, one_pending).
Proof.
  destruct (blank_text_rejected 7 1 5 "   " plan_trip review blank_comment 3
              one_pending) as (_ & _ & Hcomment).
  - reflexivity.
  - apply Hcomment. reflexivity.
Defined.

Lemma put_todo_changes_owner_witness :
  get_todo 7 1 (put_todo 7 1 hand_over 3 one_pending).2 = not_found.
Proof.
  apply (put_todo_changes_owner 7 8 1 hand_over 3 one_pending
           (sample 1 7 "Write report" "pending")).
  - unique_by_evaluation.
  - by_evaluation.
  - reflexivity.
  - reflexivity.
  - discriminate.
Defined.

Lemma post_comment_appends_witness :
  ∃ t1,
    findOne (own_todo 1 7) (post_comment 7 1 looks_good 3 one_pending).2 = Some t1 ∧
    comments t1 = [{| cm_text := "Looks good"; cm_user := 7%N; cm_createdAt := 1%Z |}].
Proof.
  destruct (post_comment_appends 7 1 looks_good " Looks good " 3 one_pending
              (sample 1 7 "Write report" "pending"))
    as (t1 & _ & Hf & Hc & _).
  - unique_by_evaluation.
  - by_evaluation.
  - reflexivity.
  - reflexivity.
  - by_evaluation.
  - exists t1. split; [exact Hf | exact Hc].
Defined.
